(** * seispy.plot: zero-crossing insertion and input normalisation

    A shallow embedding of [src/seispy/plot.py]: the numpy primitives the
    module calls ([np.signbit], [np.diff], [np.where], fancy indexing,
    [np.split], [np.hstack], [np.min], [np.max], [np.std], [np.arange]),
    then [insert_zeros] and [wiggle_input_check] written over them the way
    the Python source composes them.

    Arrays are float64 buffers.  The element type is an interface
    ([Scalar]) with two instances: IEEE binary64 (Rocq's primitive floats,
    which is what numpy computes with) and the real numbers (exact
    arithmetic, what the interpolation formula means on paper).  Everything
    structural is proved once, for every instance.

    Conventions of the model:
    - an integer array (the default axes made by [np.arange]) is held as
      the floats it converts to, which is exact below 2^53;
    - Rocq's binary64 has a single NaN, without a sign, so [signbit nan] is
      [false], as it is for numpy's [np.nan];
    - [np.sum] adds the elements from left to right; numpy may pair them
      differently, which can change the last bits of a long sum and changes
      nothing in exact arithmetic or on the short columns evaluated below;
    - a Python int is unbounded; given as stretch factor it becomes the
      nearest float64 when the product of line 98 is formed, and
      [OverflowError] is raised when float64 cannot hold it;
    - the division of the real numbers is total ([x / 0 = 0]), that of
      binary64 gives an infinity or nan: a theorem that states values
      computed in exact arithmetic assumes what keeps its divisors away from
      zero;
    - the exceptions are Python's, with their messages; the runtime warnings
      of a division by zero and the [print] calls of verbose mode are not
      modelled. *)

From Stdlib Require Import String.
From Stdlib Require Import List Bool Arith ZArith Lia.
From Stdlib Require Import Floats Uint63.
From Stdlib Require Import Reals Lra.
Import ListNotations.

Set Implicit Arguments.

(** ** Python exceptions *)

Inductive exn : Type :=
| TypeError (msg : string)
| ValueError (msg : string)
| IndexError (msg : string)
| OverflowError (msg : string).

Inductive result (A : Type) : Type :=
| Ok (a : A)
| Raise (e : exn).

Arguments Ok {A} a.
Arguments Raise {A} e.

Definition bind {A B : Type} (m : result A) (k : A -> result B) : result B :=
  match m with
  | Ok a => k a
  | Raise e => Raise e
  end.

Declare Scope py_scope.
Delimit Scope py_scope with py.
Notation "x <- m ;; k" := (bind m (fun x => k))
  (at level 61, m at next level, right associativity) : py_scope.
Notation "'check' c 'else_raise' e ;; k" := (if c then k else Raise e)
  (at level 61, c at next level, e at next level, right associativity) : py_scope.
Open Scope py_scope.

(** ** The element type of an array *)

Class Scalar (F : Type) : Type := {
  zero : F;                      (* np.zeros(1)[0], i.e. +0.0 *)
  of_Z : Z -> F;                 (* an integer as a float64, rounded to nearest *)
  add : F -> F -> F;
  sub : F -> F -> F;
  mul : F -> F -> F;
  div : F -> F -> F;             (* true division; x/0 is inf or nan, never raises *)
  sqrt : F -> F;
  signbit : F -> bool;           (* np.signbit *)
  minimum : F -> F -> F;         (* np.minimum, nan-propagating *)
  maximum : F -> F -> F;         (* np.maximum, nan-propagating *)
  leb : F -> F -> bool           (* x <= y *)
}.

(** ** numpy primitives on one-dimensional arrays *)

Section Numpy.
Context {F : Type} `{Scalar F}.

(** [np.arange(n)] *)
Definition np_arange (n : nat) : list F :=
  map (fun i => of_Z (Z.of_nat i)) (seq 0 n).

(** [np.signbit(a)] *)
Definition np_signbit (a : list F) : list bool := map signbit a.

(** [np.diff(a)] on a boolean array: [a[1:] != a[:-1]]. *)
Fixpoint np_diff_bool (a : list bool) : list bool :=
  match a with
  | [] => []
  | b1 :: rest =>
      match rest with
      | [] => []
      | b2 :: _ => xorb b2 b1 :: np_diff_bool rest
      end
  end.

(** [np.diff(a)] on a float array: [a[1:] - a[:-1]]. *)
Fixpoint np_diff (a : list F) : list F :=
  match a with
  | [] => []
  | x1 :: rest =>
      match rest with
      | [] => []
      | x2 :: _ => sub x2 x1 :: np_diff rest
      end
  end.

(** [np.where(mask)[0]]: the indices at which [mask] holds, ascending. *)
Fixpoint where_from (i : nat) (mask : list bool) : list nat :=
  match mask with
  | [] => []
  | b :: rest => if b then i :: where_from (S i) rest else where_from (S i) rest
  end.

Definition np_where (mask : list bool) : list nat := where_from 0 mask.

(** [a[idx]] with an index array: every index must be in range. *)
Fixpoint np_take {X : Type} (a : list X) (idx : list nat) : result (list X) :=
  match idx with
  | [] => Ok []
  | i :: rest =>
      match nth_error a i with
      | Some x => xs <- np_take a rest ;; Ok (x :: xs)
      | None => Raise (IndexError "index out of bounds")
      end
  end.

(** [a[st:en]] for non-negative bounds. *)
Definition slice {X : Type} (a : list X) (st en : nat) : list X :=
  firstn (en - st) (skipn st a).

(** [np.split(a, indices)]: the slices between consecutive division points
    [0, indices..., len(a)]. *)
Fixpoint split_from {X : Type} (a : list X) (st : nat) (indices : list nat)
  : list (list X) :=
  match indices with
  | [] => [slice a st (length a)]
  | en :: rest => slice a st en :: split_from a en rest
  end.

Definition np_split {X : Type} (a : list X) (indices : list nat) : list (list X) :=
  split_from a 0 indices.

(** Element-wise binary operation on arrays of one shape. *)
Fixpoint zip_with {X Y W : Type} (f : X -> Y -> W) (a : list X) (b : list Y) : list W :=
  match a, b with
  | x :: a', y :: b' => f x y :: zip_with f a' b'
  | _, _ => []
  end.

(** A Python list indexed in range, [l[i]]. *)
Definition py_index {X : Type} (l : list X) (i : nat) : result X :=
  match nth_error l i with
  | Some x => Ok x
  | None => Raise (IndexError "list index out of range")
  end.

(** A one-dimensional array indexed by an integer, [a[i]]. *)
Definition np_item {X : Type} (a : list X) (i : nat) : result X :=
  match nth_error a i with
  | Some x => Ok x
  | None => Raise (IndexError "index out of bounds")
  end.

(** [for i in range(n): acc = body(i, acc)] *)
Fixpoint for_range {St : Type} (i n : nat) (body : nat -> St -> result St) (acc : St)
  : result St :=
  match n with
  | O => Ok acc
  | S n' => acc' <- body i acc ;; for_range (S i) n' body acc'
  end.

(** ** [insert_zeros] (plot.py, lines 10-40) *)

Definition zc_idx (trace : list F) : list nat :=
  np_where (np_diff_bool (np_signbit trace)).

(** Lines 15-16: [if tt is None: tt = np.arange(len(trace))]. *)
Definition default_axis (trace : list F) (tt_arg : option (list F)) : list F :=
  match tt_arg with
  | None => np_arange (length trace)
  | Some a => a
  end.

Definition insert_zeros (trace : list F) (tt_arg : option (list F))
  : result (list F * list F) :=
  let tt_ := default_axis trace tt_arg in
  (* Find zeros *)
  let zc := zc_idx trace in
  x1 <- np_take tt_ zc ;;
  x2 <- np_take tt_ (map S zc) ;;
  y1 <- np_take trace zc ;;
  y2 <- np_take trace (map S zc) ;;
  let a := zip_with div (zip_with sub y2 y1) (zip_with sub x2 x1) in
  let tt_zero := zip_with sub x1 (zip_with div y1 a) in
  (* split tt and trace *)
  let tt_split := np_split tt_ (map S zc) in
  let trace_split := np_split trace (map S zc) in
  tt_zi <- py_index tt_split 0 ;;
  trace_zi <- py_index trace_split 0 ;;
  (* insert zeros in tt and trace *)
  r <- for_range 0 (length tt_zero)
         (fun i '(tt_zi, trace_zi) =>
            z <- py_index tt_zero i ;;
            tseg <- py_index tt_split (i + 1) ;;
            yseg <- py_index trace_split (i + 1) ;;
            Ok (tt_zi ++ [z] ++ tseg, trace_zi ++ [zero] ++ yseg))
         (tt_zi, trace_zi) ;;
  let '(tt_zi, trace_zi) := r in
  Ok (trace_zi, tt_zi).

End Numpy.

(** ** What [insert_zeros] computes, by recursion on the trace *)

Section InsertZerosSpec.
Context {F : Type} `{Scalar F}.

(** The zero of the line through [(x1, y1)] and [(x2, y2)], as lines 24-25
    evaluate it. *)
Definition crossing (x1 x2 y1 y2 : F) : F :=
  let a := div (sub y2 y1) (sub x2 x1) in
  sub x1 (div y1 a).

(** A sign change between consecutive samples (one entry of
    [np.diff(np.signbit(trace))]). *)
Definition sign_change (y1 y2 : F) : bool := xorb (signbit y2) (signbit y1).

(** The samples with a zero after every sample that is followed by a sign
    change. *)
Fixpoint trace_spliced (trace : list F) : list F :=
  match trace with
  | [] => []
  | y1 :: trace' =>
      match trace' with
      | [] => [y1]
      | y2 :: _ =>
          if sign_change y1 y2 then y1 :: zero :: trace_spliced trace'
          else y1 :: trace_spliced trace'
      end
  end.

(** The axis with the interpolated coordinate at the same places. *)
Fixpoint axis_spliced (trace axis : list F) : list F :=
  match trace, axis with
  | y1 :: trace', x1 :: axis' =>
      match trace', axis' with
      | y2 :: _, x2 :: _ =>
          if sign_change y1 y2
          then x1 :: crossing x1 x2 y1 y2 :: axis_spliced trace' axis'
          else x1 :: axis_spliced trace' axis'
      | _, _ => axis
      end
  | _, _ => axis
  end.

(** The four gathered arrays [x1, x2, y1, y2] of lines 20-23, row by row. *)
Fixpoint gathered (trace axis : list F) : list (F * F * (F * F)) :=
  match trace, axis with
  | y1 :: trace', x1 :: axis' =>
      match trace', axis' with
      | y2 :: _, x2 :: _ =>
          if sign_change y1 y2
          then (x1, x2, (y1, y2)) :: gathered trace' axis'
          else gathered trace' axis'
      | _, _ => []
      end
  | _, _ => []
  end.

Definition row_x1 (g : F * F * (F * F)) : F := fst (fst g).
Definition row_x2 (g : F * F * (F * F)) : F := snd (fst g).
Definition row_y1 (g : F * F * (F * F)) : F := fst (snd g).
Definition row_y2 (g : F * F * (F * F)) : F := snd (snd g).

Definition row_crossing (g : F * F * (F * F)) : F :=
  crossing (row_x1 g) (row_x2 g) (row_y1 g) (row_y2 g).

(** [np.split] followed by the loop of lines 34-38: the slices between the
    division points, with one inserted value before each slice but the
    first. *)
Fixpoint join_from {X : Type} (a : list X) (st : nat) (indices : list nat)
    (zs : list X) : list X :=
  match indices, zs with
  | en :: indices', z :: zs' => slice a st en ++ z :: join_from a en indices' zs'
  | _, _ => slice a st (length a)
  end.

(** Segments with one inserted value before each. *)
Definition weave {X : Type} (zs : list X) (segs : list (list X)) : list X :=
  concat (zip_with (fun z seg => z :: seg) zs segs).

(** The number of sign changes of a trace, counted index by index. *)
Definition sign_changes (trace : list F) : nat :=
  length (filter (fun i => match nth_error trace i, nth_error trace (S i) with
                           | Some y1, Some y2 => negb (Bool.eqb (signbit y1) (signbit y2))
                           | _, _ => false
                           end)
                 (seq 0 (length trace - 1))).

(** [out] is [inp] with points of amplitude [zero] inserted between
    consecutive samples, at most one per gap. *)
Inductive zeros_between : list F -> list F -> Prop :=
| zb_nil : zeros_between [] []
| zb_keep y inp out :
    zeros_between inp out -> zeros_between (y :: inp) (y :: out)
| zb_zero y y' inp out :
    zeros_between (y' :: inp) out ->
    zeros_between (y :: y' :: inp) (y :: zero :: out).

(** Where the loop of lines 34-38 puts the inserted points: the [k]-th one
    comes after the [zc_idx[k] + 1] samples up to its crossing and the [k]
    points inserted before it. *)
Fixpoint positions_from (k : nat) (zc : list nat) : list nat :=
  match zc with
  | [] => []
  | i :: zc' => (i + 1 + k) :: positions_from (S k) zc'
  end.

Definition inserted_at (zc : list nat) : list nat := positions_from 0 zc.

(** [np.delete(a, positions)] *)
Fixpoint delete_from {X : Type} (i : nat) (positions : list nat) (a : list X) : list X :=
  match a with
  | [] => []
  | x :: a' =>
      if existsb (Nat.eqb i) positions then delete_from (S i) positions a'
      else x :: delete_from (S i) positions a'
  end.

Definition np_delete {X : Type} (a : list X) (positions : list nat) : list X :=
  delete_from 0 positions a.

(** The axis has a coordinate for every sample (in [wiggle] it has exactly
    as many as the trace; the default axis always fits). *)
Definition axis_fits (trace : list F) (tt_arg : option (list F)) : Prop :=
  length trace <= length (default_axis trace tt_arg).

(** All samples have one sign. *)
Definition same_sign (trace : list F) : Prop :=
  forall y1 y2, In y1 trace -> In y2 trace -> signbit y1 = signbit y2.

(** An axis ordered by non-decreasing coordinate. *)
Fixpoint non_decreasing (axis : list F) : bool :=
  match axis with
  | [] => true
  | x1 :: axis' =>
      match axis' with
      | [] => true
      | x2 :: _ => leb x1 x2 && non_decreasing axis'
      end
  end.

End InsertZerosSpec.

(** ** Python values that reach [wiggle_input_check] *)

(** An [np.ndarray] of dtype float64: its shape and its buffer in C order. *)
Record ndarray (F : Type) : Type := mk_ndarray {
  shape : list nat;
  flat : list F
}.

Arguments mk_ndarray {F} shape flat.

Inductive pyval (F : Type) : Type :=
| PyNone
| PyBool (b : bool)
| PyInt (z : Z)
| PyFloat (x : F)                 (* a Python float *)
| PyStr (s : string)              (* any other builtin object *)
| PyNpFloat (x : F)               (* an np.float64 scalar: a numpy object and a float *)
| PyArray (a : ndarray F).

Arguments PyNone {F}.
Arguments PyBool {F} b.
Arguments PyInt {F} z.
Arguments PyFloat {F} x.
Arguments PyStr {F} s.
Arguments PyNpFloat {F} x.
Arguments PyArray {F} a.

Section Normalizer.
Context {F : Type} `{Scalar F}.

(** A buffer is as long as its shape says. *)
Definition well_formed (a : ndarray F) : Prop :=
  length (flat a) = fold_right Nat.mul 1 (shape a).

(** [type(v).__module__ == np.__name__] together with [v.shape]. *)
Definition np_shape (v : pyval F) : option (list nat) :=
  match v with
  | PyArray a => Some (shape a)
  | PyNpFloat _ => Some []
  | _ => None
  end.

(** [isinstance(v, bool)] *)
Definition is_bool (v : pyval F) : bool :=
  match v with
  | PyBool _ => true
  | _ => false
  end.

(** [isinstance(v, (int, float))]: [bool] is a subclass of [int],
    [np.float64] of [float]. *)
Definition is_number (v : pyval F) : bool :=
  match v with
  | PyBool _ | PyInt _ | PyFloat _ | PyNpFloat _ => true
  | _ => false
  end.

(** The Python ints that convert to a float64: those that round to a finite
    one, which are the ints of magnitude below [2^1024 - 2^970] (half a unit
    in the last place above the largest float64).  Python ints are
    unbounded; converting a larger one raises [OverflowError]. *)
Definition float64_holds (z : Z) : bool :=
  (Z.abs z <? 2 ^ 1024 - 2 ^ 970)%Z.

(** The float64 a number multiplies an array with: a Python int is
    converted, and has no float64 when it is too large. *)
Definition as_number (v : pyval F) : option F :=
  match v with
  | PyBool b => Some (of_Z (if b then 1 else 0))
  | PyInt z => if float64_holds z then Some (of_Z z) else None
  | PyFloat x => Some x
  | PyNpFloat x => Some x
  | _ => None
  end.

(** The operand [sf] of [... * sf] (line 98), converted when the product is
    formed. *)
Definition as_float64 (sf : pyval F) : result F :=
  match as_number sf with
  | Some x => Ok x
  | None => Raise (OverflowError "int too large to convert to float")
  end.

(** [np.add.reduce(a)] *)
Definition np_sum (a : list F) : F :=
  match a with
  | [] => zero
  | x :: rest => fold_left add rest x
  end.

(** [np.min(a)] and [np.max(a)]: an empty array has no minimum. *)
Definition np_min (a : list F) : result F :=
  match a with
  | [] => Raise (ValueError "zero-size array to reduction operation minimum which has no identity")
  | x :: rest => Ok (fold_left minimum rest x)
  end.

Definition np_max (a : list F) : result F :=
  match a with
  | [] => Raise (ValueError "zero-size array to reduction operation maximum which has no identity")
  | x :: rest => Ok (fold_left maximum rest x)
  end.

(** [np.std(a)] of one column: [sqrt(mean((a - mean(a))**2))]. *)
Definition np_mean (a : list F) : F :=
  div (np_sum a) (of_Z (Z.of_nat (length a))).

Definition np_std (a : list F) : F :=
  let arrmean := np_mean a in
  let x := map (fun v => sub v arrmean) a in
  sqrt (np_mean (map (fun v => mul v v) x)).

(** [data[:, ntr]] of a [rows] by [cols] buffer. *)
Definition column (rows cols : nat) (buf : list F) (ntr : nat) : list F :=
  map (fun i => nth (i * cols + ntr) buf zero) (seq 0 rows).

(** [np.std(data, axis=0)] *)
Definition np_std_axis0 (rows cols : nat) (buf : list F) : list F :=
  map (fun ntr => np_std (column rows cols buf ntr)) (seq 0 cols).

Definition arange_array (n : nat) : ndarray F :=
  mk_ndarray [n] (np_arange n).

(** ** [wiggle_input_check] (plot.py, lines 43-100), block by block.  The
    [print] calls of verbose mode write to standard output only and are
    left out. *)

(** Lines 59-71, "Input check for tt". *)
Definition check_tt (rows : nat) (tt_arg : pyval F) : result (ndarray F) :=
  match tt_arg with
  | PyNone => Ok (arange_array rows)
  | _ =>
      match np_shape tt_arg, tt_arg with
      | None, _ => Raise (TypeError "tt must be a numpy array")
      | Some [n], PyArray a =>
          check Nat.eqb n rows
          else_raise ValueError "tt must have same as data's rows" ;;
          Ok a
      | Some _, _ => Raise (ValueError "tt must be a 1D array")
      end
  end.

(** Lines 73-87, "Input check for xx": the messages name [tt], and so does
    the length test, which reads [tt.shape[0]] and [data.shape[0]]. *)
Definition check_xx (rows cols : nat) (tt_ : ndarray F) (xx_arg : pyval F)
  : result (ndarray F) :=
  match xx_arg with
  | PyNone => Ok (arange_array cols)
  | _ =>
      match np_shape xx_arg, xx_arg with
      | None, _ => Raise (TypeError "tt must be a numpy array")
      | Some [_], PyArray a =>
          check Nat.eqb (hd 0 (shape tt_)) rows
          else_raise ValueError "tt must have same as data's rows" ;;
          Ok a
      | Some _, _ => Raise (ValueError "tt must be a 1D array")
      end
  end.

(** Lines 93-98: the trace spacing, the largest column deviation and the
    rescaled buffer.  The stretch factor is still the Python number here; it
    becomes a float64 in the last product, after both reductions. *)
Definition rescale (rows cols : nat) (buf xx : list F) (sf : pyval F)
  : result (ndarray F * F) :=
  (* Compute trace horizontal spacing *)
  ts <- np_min (np_diff xx) ;;
  (* Rescale data by trace_spacing and stretch_factor *)
  data_max_std <- np_max (np_std_axis0 rows cols buf) ;;
  sf <- as_float64 sf ;;
  let data := map (fun d => mul (mul (div d data_max_std) ts) sf) buf in
  Ok (mk_ndarray [rows; cols] data, ts).

Definition wiggle_input_check (data tt_arg xx_arg sf verbose : pyval F)
  : result (ndarray F * ndarray F * ndarray F * F) :=
  (* Input check for verbose *)
  check is_bool verbose else_raise TypeError "verbose must be a bool" ;;
  (* Input check for data *)
  match np_shape data with
  | None => Raise (TypeError "data must be a numpy array")
  | Some [rows; cols] =>
      let buf := match data with PyArray a => flat a | _ => [] end in
      tt_ <- check_tt rows tt_arg ;;
      xx <- check_xx rows cols tt_ xx_arg ;;
      (* Input check for stretch factor (sf) *)
      check is_number sf
      else_raise TypeError "Strech factor(sf) must be a number" ;;
      r <- rescale rows cols buf (flat xx) sf ;;
      let '(data, ts) := r in
      Ok (data, tt_, xx, ts)
  | Some _ => Raise (ValueError "data must be a 2D array")
  end.

(** An axis argument and the array it stands for: the index sequence when
    the argument is [None], the argument itself when it is a one-dimensional
    array. *)
Definition resolves_to (n : nat) (arg : pyval F) (a : ndarray F) : Prop :=
  (arg = PyNone /\ a = arange_array n) \/
  (arg = PyArray a /\ exists m, shape a = [m]).

(** A valid input of the normalizer: a two-dimensional [data], [tt] absent
    or one-dimensional with one coordinate per row, [xx] absent or
    one-dimensional, as stretch factor a number that float64 can hold; and
    enough of it for the spacing and the deviation to exist (two trace
    coordinates, one column). *)
Record valid_input (data : ndarray F) (tt_arg xx_arg sf : pyval F)
    (rows cols : nat) (tt_ xx : ndarray F) (sfv : F) : Prop := {
  valid_data : shape data = [rows; cols];
  valid_tt : resolves_to rows tt_arg tt_;
  valid_tt_length : shape tt_ = [rows];
  valid_xx : resolves_to cols xx_arg xx;
  valid_sf : as_number sf = Some sfv;
  valid_spacing : 2 <= length (flat xx);
  valid_columns : 1 <= cols
}.

(** [c * data] *)
Definition scale_array (c : F) (a : ndarray F) : ndarray F :=
  mk_ndarray (shape a) (map (mul c) (flat a)).

(** [data / c] *)
Definition divide_array (a : ndarray F) (c : F) : ndarray F :=
  mk_ndarray (shape a) (map (fun d => div d c) (flat a)).

(** ** The part of [wiggle] (lines 134-151) that prepares what is drawn:
    per trace its offset and the augmented trace and axis. *)
Fixpoint wiggle_loop (rows cols : nat) (buf tt_ xx : list F) (ntr n : nat)
  : result (list (F * (list F * list F))) :=
  match n with
  | O => Ok []
  | S n' =>
      let trace := column rows cols buf ntr in
      offset <- np_item xx ntr ;;
      zi <- insert_zeros trace (Some tt_) ;;
      rest <- wiggle_loop rows cols buf tt_ xx (S ntr) n' ;;
      Ok ((offset, zi) :: rest)
  end.

Definition wiggle_traces (data tt_arg xx_arg sf verbose : pyval F)
  : result (list (F * (list F * list F))) :=
  r <- wiggle_input_check data tt_arg xx_arg sf verbose ;;
  let '(data, tt_, xx, ts) := r in
  match shape data with
  | [rows; Ntr] => wiggle_loop rows Ntr (flat data) (flat tt_) (flat xx) 0 Ntr
  | _ => Raise (IndexError "tuple index out of range")
  end.

End Normalizer.

(** ** IEEE binary64 *)

Module Float64.

(** An integer as the nearest float64 (ties to even), of any size: an
    infinity from [2^1024 - 2^970] on. *)
Definition float_of_Z (z : Z) : float :=
  SF2Prim (SpecFloat.binary_normalize prec emax z 0 false).

Definition fmin (x y : float) : float :=
  if PrimFloat.is_nan x then x
  else if PrimFloat.is_nan y then y
  else if PrimFloat.ltb y x then y else x.

Definition fmax (x y : float) : float :=
  if PrimFloat.is_nan x then x
  else if PrimFloat.is_nan y then y
  else if PrimFloat.ltb x y then y else x.

#[global] Instance scalar : Scalar float := {|
  zero := PrimFloat.zero;
  of_Z := float_of_Z;
  add := PrimFloat.add;
  sub := PrimFloat.sub;
  mul := PrimFloat.mul;
  div := PrimFloat.div;
  sqrt := PrimFloat.sqrt;
  signbit := PrimFloat.get_sign;
  minimum := fmin;
  maximum := fmax;
  leb := PrimFloat.leb
|}.

(** A float64 array as a Python value. *)
Definition array (shape : list nat) (buf : list float) : pyval float :=
  PyArray (mk_ndarray shape buf).

(** The example scenario of the specification (section 8). *)
Definition scenario_data : list float := [1; 2; -1; -2]%float.
Definition scenario_tt : list float := [0; 1]%float.
Definition scenario_xx : list float := [0; 1]%float.

(** The default stretch factor of [wiggle], [sf=0.15], as binary64. *)
Definition sf_default : float := 0x1.3333333333333p-3%float.

End Float64.

(** ** Exact arithmetic: the real numbers *)

Module Exact.

Definition Rsignbit (x : R) : bool := if Rlt_dec x 0 then true else false.
Definition Rleb (x y : R) : bool := if Rle_dec x y then true else false.

(** The division of the reals is total, with [x / 0 = 0], where binary64
    gives an infinity or nan.  Where a theorem below states amplitudes or
    coordinates computed with this instance, its hypotheses keep every
    divisor away from zero, or the quotient by zero is shown not to matter
    for the result. *)
#[global] Instance scalar : Scalar R := {|
  zero := 0%R;
  of_Z := IZR;
  add := Rplus;
  sub := Rminus;
  mul := Rmult;
  div := Rdiv;
  sqrt := R_sqrt.sqrt;
  signbit := Rsignbit;
  minimum := Rmin;
  maximum := Rmax;
  leb := Rleb
|}.

End Exact.

(** ** What [wiggle] and [traces] hand to the plotting library *)

Section Drawing.
Context {F : Type} `{Scalar F}.

(** In the output of [insert_zeros], position [p] holds an inserted point:
    amplitude [zero], and as coordinate the interpolation of lines 24-25
    between the two points next to it, whose sign bits differ. *)
Definition crossing_at (trace_zi tt_zi : list F) (p : nat) : Prop :=
  exists x1 x2 y1 y2,
    (1 <= p)%nat /\
    nth_error tt_zi (Nat.pred p) = Some x1 /\ nth_error tt_zi (S p) = Some x2 /\
    nth_error trace_zi (Nat.pred p) = Some y1 /\
    nth_error trace_zi (S p) = Some y2 /\
    sign_change y1 y2 = true /\
    nth_error trace_zi p = Some zero /\
    nth_error tt_zi p = Some (crossing x1 x2 y1 y2).

(** [trace_zi + offset] (plot.py, lines 148 and 151). *)
Definition shifted (offset : F) (trace_zi : list F) : list F :=
  map (fun i => add i offset) trace_zi.

(** [where=trace_zi >= 0] (line 149): the samples that are filled. *)
Definition fill_where (trace_zi : list F) : list bool :=
  map (fun i => leb zero i) trace_zi.

(** The three list comprehensions of [traces] (lines 182-190); a [None]
    entry becomes a gap ([nan]) of the float64 array built from the list. *)
Definition trace_top (offset : F) (trace_zi : list F) : list (option F) :=
  map (fun i => if leb zero i then Some (add i offset) else None) trace_zi.

Definition trace_line (offset : F) (trace_zi : list F) : list (option F) :=
  map (fun i => if leb zero i then Some offset else None) trace_zi.

Definition trace_bot (offset : F) (trace_zi : list F) : list (option F) :=
  map (fun i => if leb i zero then Some (add i offset) else None) trace_zi.

End Drawing.

(** The line through [(x1, y1)] and [(x2, y2)] at the coordinate [x]. *)
Definition line_through (x1 x2 y1 y2 x : R) : R :=
  (y1 + (y2 - y1) / (x2 - x1) * (x - x1))%R.

(** The standard deviation of a column as the specification words it: the
    square root of the mean squared distance to the mean.  [np_std] above is
    numpy's computation; the two are compared below. *)
Definition arithmetic_mean (a : list R) : R :=
  (fold_right Rplus 0 a / INR (length a))%R.

Definition standard_deviation (a : list R) : R :=
  R_sqrt.sqrt (arithmetic_mean (map (fun x => (x - arithmetic_mean a) ^ 2) a))%R.

(** Some column of the matrix is not constant: its deviation is not zero,
    and neither is the divisor of line 98.  (A matrix without rows has no
    such column.) *)
Definition varies (rows cols : nat) (buf : list R) : Prop :=
  exists j, j < cols /\ standard_deviation (column rows cols buf j) <> 0%R.

(** Consecutive coordinates strictly increase. *)
Definition increasing (axis : list R) : Prop :=
  forall i x1 x2,
    nth_error axis i = Some x1 -> nth_error axis (S i) = Some x2 -> (x1 < x2)%R.

Section InsertZerosFacts.
Context {F : Type} `{Scalar F}.

(** *** Index arithmetic of the numpy primitives *)

Lemma where_from_S (mask : list bool) (i : nat) :
  where_from (S i) mask = map S (where_from i mask).
Proof.
  revert i; induction mask as [|b mask IH]; intros i; simpl; [reflexivity|].
  rewrite IH. destruct b; reflexivity.
Qed.

Lemma zc_idx_cons2 (y1 y2 : F) (trace : list F) :
  zc_idx (y1 :: y2 :: trace) =
  (if sign_change y1 y2 then [0] else []) ++ map S (zc_idx (y2 :: trace)).
Proof.
  unfold zc_idx, np_where, sign_change. simpl.
  rewrite where_from_S. destruct (xorb _ _); reflexivity.
Qed.

Lemma zc_idx_single (y : F) : zc_idx [y] = [].
Proof. reflexivity. Qed.

Lemma np_take_shift {X : Type} (x : X) (a : list X) (idx : list nat) :
  np_take (x :: a) (map S idx) = np_take a idx.
Proof.
  induction idx as [|i idx IH]; simpl; [reflexivity|].
  rewrite IH. reflexivity.
Qed.

Lemma slice_shift {X : Type} (x : X) (a : list X) (st en : nat) :
  slice (x :: a) (S st) (S en) = slice a st en.
Proof. reflexivity. Qed.

Lemma slice_head {X : Type} (x : X) (a : list X) (en : nat) :
  slice (x :: a) 0 (S en) = x :: slice a 0 en.
Proof. unfold slice. rewrite !Nat.sub_0_r. reflexivity. Qed.

Lemma join_from_shift {X : Type} (x : X) (a : list X) (indices : list nat)
    (zs : list X) (st : nat) :
  join_from (x :: a) (S st) (map S indices) zs = join_from a st indices zs.
Proof.
  revert st zs; induction indices as [|en indices IH]; intros st zs; simpl.
  - reflexivity.
  - destruct zs as [|z zs]; [reflexivity|].
    rewrite IH. reflexivity.
Qed.

Lemma join_from_head {X : Type} (x : X) (a : list X) (indices : list nat)
    (zs : list X) :
  join_from (x :: a) 0 (map S indices) zs = x :: join_from a 0 indices zs.
Proof.
  destruct indices as [|en indices]; cbn [join_from map length].
  - apply slice_head.
  - destruct zs as [|z zs]; [apply slice_head|].
    rewrite join_from_shift, slice_head. reflexivity.
Qed.

Lemma join_from_crossing {X : Type} (x : X) (a : list X) (indices : list nat)
    (z : X) (zs : list X) :
  join_from (x :: a) 0 (1 :: map S indices) (z :: zs) =
  x :: z :: join_from a 0 indices zs.
Proof.
  cbn [join_from]. rewrite (join_from_shift x a indices zs 0).
  destruct a; reflexivity.
Qed.

(** *** The loop of lines 34-38 in closed form *)

Lemma skipn_nth_error {X : Type} (l : list X) (i : nat) (x : X) :
  nth_error l i = Some x -> skipn i l = x :: skipn (S i) l.
Proof.
  revert i; induction l as [|y l IH]; intros [|i] Hnth; simpl in *; try discriminate.
  - injection Hnth as ->. reflexivity.
  - apply IH, Hnth.
Qed.

Lemma py_index_ok {X : Type} (l : list X) (i : nat) :
  i < length l -> exists x, nth_error l i = Some x /\ py_index l i = Ok x.
Proof.
  intros Hi. unfold py_index.
  destruct (nth_error l i) as [x|] eqn:E.
  - exists x. split; reflexivity.
  - apply nth_error_None in E. lia.
Qed.

Lemma weave_cons {X : Type} (z : X) (seg : list X) zs segs :
  weave (z :: zs) (seg :: segs) = z :: seg ++ weave zs segs.
Proof. reflexivity. Qed.

Lemma insert_loop_closed (tt_zero : list F) (tt_split trace_split : list (list F)) :
  forall n i tt_zi trace_zi,
    length tt_zero = i + n ->
    length tt_split = S (i + n) ->
    length trace_split = S (i + n) ->
    for_range i n
      (fun i '(tt_zi, trace_zi) =>
         z <- py_index tt_zero i ;;
         tseg <- py_index tt_split (i + 1) ;;
         yseg <- py_index trace_split (i + 1) ;;
         Ok (tt_zi ++ [z] ++ tseg, trace_zi ++ [zero] ++ yseg))
      (tt_zi, trace_zi)
    = Ok (tt_zi ++ weave (skipn i tt_zero) (skipn (S i) tt_split),
          trace_zi ++ weave (map (fun _ => zero) (skipn i tt_zero))
                            (skipn (S i) trace_split)).
Proof.
  induction n as [|n IH]; intros i tt_zi trace_zi Hz Ht Hy.
  - cbn [for_range].
    rewrite (skipn_all2 tt_zero) by lia.
    unfold weave. simpl. rewrite !app_nil_r. reflexivity.
  - cbn [for_range].
    destruct (py_index_ok tt_zero (i := i)) as (z & Ez & ->); [lia|].
    destruct (py_index_ok tt_split (i := i + 1)) as (tseg & Et & ->); [lia|].
    destruct (py_index_ok trace_split (i := i + 1)) as (yseg & Ey & ->); [lia|].
    cbn [bind].
    rewrite IH by lia.
    rewrite (skipn_nth_error _ _ Ez).
    replace (i + 1) with (S i) in Et, Ey by lia.
    rewrite (skipn_nth_error _ _ Et), (skipn_nth_error _ _ Ey).
    cbn [map]. rewrite !weave_cons.
    rewrite <- !app_assoc. reflexivity.
Qed.

Lemma split_from_length {X : Type} (a : list X) (indices : list nat) (st : nat) :
  length (split_from a st indices) = S (length indices).
Proof.
  revert st; induction indices as [|en indices IH]; intros st; simpl; [reflexivity|].
  rewrite IH. reflexivity.
Qed.

Lemma split_from_join {X : Type} (a : list X) (indices : list nat) :
  forall st zs, length zs = length indices ->
    match split_from a st indices with
    | [] => []
    | seg :: segs => seg ++ weave zs segs
    end = join_from a st indices zs.
Proof.
  induction indices as [|en indices IH]; intros st zs Hlen.
  - destruct zs; [|discriminate]. simpl. apply app_nil_r.
  - destruct zs as [|z zs]; [discriminate|].
    cbn [split_from join_from].
    specialize (IH en zs ltac:(simpl in Hlen; lia)).
    destruct (split_from a en indices) as [|seg segs] eqn:E.
    + pose proof (split_from_length a indices en) as Hl. rewrite E in Hl. discriminate.
    + rewrite weave_cons, IH. reflexivity.
Qed.

Lemma np_take_length {X : Type} (a : list X) (idx : list nat) (xs : list X) :
  np_take a idx = Ok xs -> length xs = length idx.
Proof.
  revert xs; induction idx as [|i idx IH]; intros xs; simpl.
  - intros [= <-]. reflexivity.
  - destruct (nth_error a i); [|discriminate].
    destruct (np_take a idx) as [xs'|]; [|discriminate].
    intros [= <-]. simpl. rewrite (IH xs' eq_refl). reflexivity.
Qed.

Lemma zip_with_length {X Y W : Type} (f : X -> Y -> W) (a : list X) (b : list Y) :
  length a = length b -> length (zip_with f a b) = length a.
Proof.
  revert b; induction a as [|x a IH]; intros [|y b] Hlen; simpl in *; try lia.
  rewrite IH by lia. reflexivity.
Qed.

Lemma zip_with_map {X Y W G : Type} (f : X -> Y -> W) (g : G -> X) (h : G -> Y)
    (l : list G) :
  zip_with f (map g l) (map h l) = map (fun r => f (g r) (h r)) l.
Proof. induction l as [|r l IH]; simpl; [reflexivity|]. rewrite IH. reflexivity. Qed.

(** Once the four gathers succeed, the result is the two joined arrays. *)
Lemma insert_zeros_closed (trace axis x1 x2 y1 y2 : list F) :
  let zc := zc_idx trace in
  let tt_zero := zip_with sub x1 (zip_with div y1
                   (zip_with div (zip_with sub y2 y1) (zip_with sub x2 x1))) in
  np_take axis zc = Ok x1 ->
  np_take axis (map S zc) = Ok x2 ->
  np_take trace zc = Ok y1 ->
  np_take trace (map S zc) = Ok y2 ->
  insert_zeros trace (Some axis) =
  Ok (join_from trace 0 (map S zc) (map (fun _ => zero) tt_zero),
      join_from axis 0 (map S zc) tt_zero).
Proof.
  intros zc tt_zero E1 E2 E3 E4.
  assert (Hlen : length tt_zero = length zc).
  { apply np_take_length in E1, E2, E3, E4. rewrite length_map in E2, E4.
    unfold tt_zero. repeat (rewrite zip_with_length; try lia). }
  unfold insert_zeros. cbn [default_axis]. fold zc. rewrite E1, E2, E3, E4. cbn [bind]. fold tt_zero.
  unfold np_split.
  pose proof (split_from_length axis (map S zc) 0) as Ha.
  pose proof (split_from_length trace (map S zc) 0) as Hy.
  rewrite length_map in Ha, Hy.
  pose proof (split_from_join axis (map S zc) 0 tt_zero
                ltac:(rewrite length_map; exact Hlen)) as Ja.
  pose proof (split_from_join trace (map S zc) 0 (map (fun _ => zero) tt_zero)
                ltac:(rewrite !length_map; exact Hlen)) as Jy.
  destruct (split_from axis 0 (map S zc)) as [|aseg asegs]; [discriminate|].
  destruct (split_from trace 0 (map S zc)) as [|yseg ysegs]; [discriminate|].
  cbn [py_index nth_error bind].
  rewrite (insert_loop_closed tt_zero (aseg :: asegs) (yseg :: ysegs)
             (length tt_zero) 0 aseg yseg)
    by (simpl in *; lia).
  cbn [bind skipn]. rewrite Ja, Jy. reflexivity.
Qed.

(** *** The gathers of lines 20-23 *)

Lemma gathered_cons2 (y1 y2 x1 x2 : F) (trace axis : list F) :
  gathered (y1 :: y2 :: trace) (x1 :: x2 :: axis) =
  if sign_change y1 y2
  then (x1, x2, (y1, y2)) :: gathered (y2 :: trace) (x2 :: axis)
  else gathered (y2 :: trace) (x2 :: axis).
Proof. reflexivity. Qed.

Lemma trace_spliced_cons2 (y1 y2 : F) (trace : list F) :
  trace_spliced (y1 :: y2 :: trace) =
  if sign_change y1 y2
  then y1 :: zero :: trace_spliced (y2 :: trace)
  else y1 :: trace_spliced (y2 :: trace).
Proof. reflexivity. Qed.

Lemma axis_spliced_cons2 (y1 y2 x1 x2 : F) (trace axis : list F) :
  axis_spliced (y1 :: y2 :: trace) (x1 :: x2 :: axis) =
  if sign_change y1 y2
  then x1 :: crossing x1 x2 y1 y2 :: axis_spliced (y2 :: trace) (x2 :: axis)
  else x1 :: axis_spliced (y2 :: trace) (x2 :: axis).
Proof. reflexivity. Qed.

Lemma np_take_cons0 {X : Type} (x : X) (a : list X) (idx : list nat) (xs : list X) :
  np_take (x :: a) idx = Ok xs -> np_take (x :: a) (0 :: idx) = Ok (x :: xs).
Proof. intros E. simpl. rewrite E. reflexivity. Qed.

Lemma gathered_takes (trace : list F) :
  forall axis, length trace <= length axis ->
    let zc := zc_idx trace in
    let rows := gathered trace axis in
    np_take axis zc = Ok (map row_x1 rows) /\
    np_take axis (map S zc) = Ok (map row_x2 rows) /\
    np_take trace zc = Ok (map row_y1 rows) /\
    np_take trace (map S zc) = Ok (map row_y2 rows).
Proof.
  induction trace as [|y1 trace IH]; intros axis Hlen.
  - destruct axis; repeat split; reflexivity.
  - destruct axis as [|x1 axis]; [simpl in Hlen; lia|].
    destruct trace as [|y2 trace].
    { destruct axis; repeat split; reflexivity. }
    destruct axis as [|x2 axis]; [simpl in Hlen; lia|].
    destruct (IH (x2 :: axis) ltac:(simpl in *; lia)) as (E1 & E2 & E3 & E4).
    cbv zeta. rewrite zc_idx_cons2, gathered_cons2.
    destruct (sign_change y1 y2); cbn [app map].
    + repeat split.
      * apply np_take_cons0. rewrite np_take_shift. exact E1.
      * change (1 :: map S (map S (zc_idx (y2 :: trace))))
          with (map S (0 :: map S (zc_idx (y2 :: trace)))).
        rewrite np_take_shift. apply np_take_cons0. exact E2.
      * apply np_take_cons0. rewrite np_take_shift. exact E3.
      * change (1 :: map S (map S (zc_idx (y2 :: trace))))
          with (map S (0 :: map S (zc_idx (y2 :: trace)))).
        rewrite np_take_shift. apply np_take_cons0. exact E4.
    + repeat split; rewrite np_take_shift; assumption.
Qed.

Lemma gathered_length (trace : list F) :
  forall axis, length trace <= length axis ->
    length (gathered trace axis) = length (zc_idx trace).
Proof.
  intros axis Hlen.
  destruct (gathered_takes trace axis Hlen) as (E1 & _).
  apply np_take_length in E1. rewrite length_map in E1. exact E1.
Qed.

Lemma tt_zero_rows (rows : list (F * F * (F * F))) :
  zip_with sub (map row_x1 rows)
    (zip_with div (map row_y1 rows)
       (zip_with div (zip_with sub (map row_y2 rows) (map row_y1 rows))
                     (zip_with sub (map row_x2 rows) (map row_x1 rows))))
  = map row_crossing rows.
Proof.
  rewrite !zip_with_map. reflexivity.
Qed.

(** *** Joining at the crossings is the recursive splice *)

Lemma slice_all {X : Type} (a : list X) : slice a 0 (length a) = a.
Proof. unfold slice. rewrite Nat.sub_0_r. apply firstn_all. Qed.

Lemma join_from_nil {X : Type} (a zs : list X) : join_from a 0 [] zs = a.
Proof. cbn [join_from]. apply slice_all. Qed.

Lemma join_trace_spliced (trace : list F) :
  forall zs, length zs = length (zc_idx trace) ->
    join_from trace 0 (map S (zc_idx trace)) (map (fun _ : F => zero) zs)
    = trace_spliced trace.
Proof.
  induction trace as [|y1 trace IH]; intros zs Hlen.
  - reflexivity.
  - destruct trace as [|y2 trace].
    { reflexivity. }
    rewrite zc_idx_cons2 in *. rewrite trace_spliced_cons2.
    destruct (sign_change y1 y2); cbn [app map] in *.
    + destruct zs as [|z zs]; [discriminate|].
      cbn [map]. rewrite join_from_crossing.
      rewrite IH; [reflexivity|].
      simpl in Hlen. rewrite length_map in Hlen. lia.
    + rewrite join_from_head.
      rewrite IH; [reflexivity|].
      rewrite length_map in Hlen. exact Hlen.
Qed.

Lemma join_axis_spliced (trace : list F) :
  forall axis, length trace <= length axis ->
    join_from axis 0 (map S (zc_idx trace)) (map row_crossing (gathered trace axis))
    = axis_spliced trace axis.
Proof.
  induction trace as [|y1 trace IH]; intros axis Hlen.
  - change (zc_idx []) with (@nil nat). cbn [map]. rewrite join_from_nil.
    destruct axis; reflexivity.
  - destruct axis as [|x1 axis]; [simpl in Hlen; lia|].
    destruct trace as [|y2 trace].
    { rewrite zc_idx_single. cbn [map]. rewrite join_from_nil.
      destruct axis; reflexivity. }
    destruct axis as [|x2 axis]; [simpl in Hlen; lia|].
    rewrite zc_idx_cons2, axis_spliced_cons2, gathered_cons2.
    specialize (IH (x2 :: axis) ltac:(simpl in *; lia)).
    destruct (sign_change y1 y2); cbn [app map].
    + rewrite join_from_crossing, IH. reflexivity.
    + rewrite join_from_head, IH. reflexivity.
Qed.

(** *** [insert_zeros] refines the recursive splice *)

Lemma insert_zeros_spliced (trace axis : list F) :
  length trace <= length axis ->
  insert_zeros trace (Some axis) = Ok (trace_spliced trace, axis_spliced trace axis).
Proof.
  intros Hlen.
  destruct (gathered_takes trace axis Hlen) as (E1 & E2 & E3 & E4).
  rewrite (insert_zeros_closed trace axis E1 E2 E3 E4).
  rewrite tt_zero_rows.
  rewrite join_trace_spliced
    by (rewrite length_map; apply gathered_length, Hlen).
  rewrite join_axis_spliced by exact Hlen.
  reflexivity.
Qed.

Lemma np_arange_length (n : nat) : length (np_arange n) = n.
Proof. unfold np_arange. rewrite length_map, length_seq. reflexivity. Qed.

Lemma insert_zeros_default (trace : list F) (tt_arg : option (list F)) :
  insert_zeros trace tt_arg = insert_zeros trace (Some (default_axis trace tt_arg)).
Proof. reflexivity. Qed.

Lemma insert_zeros_fits (trace : list F) (tt_arg : option (list F)) :
  axis_fits trace tt_arg ->
  insert_zeros trace tt_arg =
  Ok (trace_spliced trace, axis_spliced trace (default_axis trace tt_arg)).
Proof.
  intros Hfit. rewrite insert_zeros_default. apply insert_zeros_spliced, Hfit.
Qed.

Lemma axis_fits_default (trace : list F) : axis_fits trace None.
Proof. unfold axis_fits, default_axis. rewrite np_arange_length. lia. Qed.

(** *** Counting the sign changes *)

Lemma sign_change_eqb (y1 y2 : F) :
  sign_change y1 y2 = negb (Bool.eqb (signbit y1) (signbit y2)).
Proof. unfold sign_change. destruct (signbit y1), (signbit y2); reflexivity. Qed.

Lemma zc_idx_filter (trace : list F) :
  zc_idx trace =
  filter (fun i => match nth_error trace i, nth_error trace (S i) with
                   | Some y1, Some y2 => negb (Bool.eqb (signbit y1) (signbit y2))
                   | _, _ => false
                   end)
         (seq 0 (length trace - 1)).
Proof.
  induction trace as [|y1 trace IH]; [reflexivity|].
  destruct trace as [|y2 trace]; [reflexivity|].
  rewrite zc_idx_cons2, IH.
  replace (length (y1 :: y2 :: trace) - 1) with (S (length (y2 :: trace) - 1))
    by (simpl; lia).
  rewrite <- cons_seq, <- seq_shift.
  cbn [filter nth_error].
  rewrite <- sign_change_eqb.
  assert (Hshift : forall l,
    filter (fun i => match nth_error (y1 :: y2 :: trace) i,
                           nth_error (y1 :: y2 :: trace) (S i) with
                     | Some a, Some b => negb (Bool.eqb (signbit a) (signbit b))
                     | _, _ => false
                     end) (map S l)
    = map S (filter (fun i => match nth_error (y2 :: trace) i,
                                    nth_error (y2 :: trace) (S i) with
                              | Some a, Some b => negb (Bool.eqb (signbit a) (signbit b))
                              | _, _ => false
                              end) l)).
  { induction l as [|i l IHl]; [reflexivity|].
    cbn [map filter]. rewrite IHl.
    cbn [nth_error].
    destruct (match nth_error (y2 :: trace) i with Some _ => _ | None => _ end);
      reflexivity. }
  rewrite Hshift.
  destruct (sign_change y1 y2); reflexivity.
Qed.

Lemma zc_idx_length (trace : list F) : length (zc_idx trace) = sign_changes trace.
Proof. unfold sign_changes. rewrite <- zc_idx_filter. reflexivity. Qed.

Lemma trace_spliced_length (trace : list F) :
  length (trace_spliced trace) = length trace + length (zc_idx trace).
Proof.
  induction trace as [|y1 trace IH]; [reflexivity|].
  destruct trace as [|y2 trace]; [reflexivity|].
  rewrite trace_spliced_cons2, zc_idx_cons2, length_app, length_map.
  destruct (sign_change y1 y2); cbn [length] in *; lia.
Qed.

Lemma axis_spliced_length (trace : list F) :
  forall axis, length trace <= length axis ->
    length (axis_spliced trace axis) = length axis + length (zc_idx trace).
Proof.
  induction trace as [|y1 trace IH]; intros axis Hlen.
  - destruct axis; simpl; lia.
  - destruct axis as [|x1 axis]; [simpl in Hlen; lia|].
    destruct trace as [|y2 trace].
    { rewrite zc_idx_single. destruct axis; simpl; lia. }
    destruct axis as [|x2 axis]; [simpl in Hlen; lia|].
    rewrite axis_spliced_cons2, zc_idx_cons2, length_app, length_map.
    specialize (IH (x2 :: axis) ltac:(simpl in *; lia)).
    destruct (sign_change y1 y2); cbn [length] in *; lia.
Qed.

Lemma trace_spliced_zeros_between (trace : list F) :
  zeros_between trace (trace_spliced trace).
Proof.
  induction trace as [|y1 trace IH]; [constructor|].
  destruct trace as [|y2 trace]; [repeat constructor|].
  rewrite trace_spliced_cons2.
  destruct (sign_change y1 y2); constructor; exact IH.
Qed.

(** *** Deleting the inserted points *)

Lemma positions_from_S (zc : list nat) (k : nat) :
  positions_from (S k) zc = map S (positions_from k zc).
Proof.
  revert k; induction zc as [|i zc IH]; intros k; [reflexivity|].
  cbn [positions_from map]. rewrite IH, Nat.add_succ_r. reflexivity.
Qed.

Lemma positions_from_map_S (zc : list nat) (k : nat) :
  positions_from k (map S zc) = map S (positions_from k zc).
Proof.
  revert k; induction zc as [|i zc IH]; intros k; [reflexivity|].
  cbn [positions_from map]. rewrite IH. reflexivity.
Qed.

Lemma existsb_eqb_shift (i : nat) (positions : list nat) :
  existsb (Nat.eqb (S i)) (map S positions) = existsb (Nat.eqb i) positions.
Proof.
  induction positions as [|p positions IH]; [reflexivity|].
  cbn [map existsb]. rewrite IH. reflexivity.
Qed.

Lemma existsb_eqb_0_shift (positions : list nat) :
  existsb (Nat.eqb 0) (map S positions) = false.
Proof. induction positions as [|p positions IH]; [reflexivity|exact IH]. Qed.

Lemma delete_from_shift {X : Type} (a : list X) (positions : list nat) :
  forall i, delete_from (S i) (map S positions) a = delete_from i positions a.
Proof.
  induction a as [|x a IH]; intros i; [reflexivity|].
  cbn [delete_from]. rewrite existsb_eqb_shift, IH. reflexivity.
Qed.

Lemma delete_from_passed {X : Type} (a : list X) (p : nat) (positions : list nat) :
  forall i, p < i -> delete_from i (p :: positions) a = delete_from i positions a.
Proof.
  induction a as [|x a IH]; intros i Hp; [reflexivity|].
  cbn [delete_from existsb].
  replace (Nat.eqb i p) with false by (symmetry; apply Nat.eqb_neq; lia).
  cbn [orb]. rewrite IH by lia. reflexivity.
Qed.

Lemma inserted_at_crossing (zc : list nat) :
  inserted_at (0 :: map S zc) = 1 :: map S (map S (inserted_at zc)).
Proof.
  unfold inserted_at. cbn [positions_from Nat.add].
  rewrite positions_from_S, positions_from_map_S. reflexivity.
Qed.

Lemma inserted_at_shift (zc : list nat) :
  inserted_at (map S zc) = map S (inserted_at zc).
Proof. apply positions_from_map_S. Qed.

Lemma trace_spliced_delete (trace : list F) :
  np_delete (trace_spliced trace) (inserted_at (zc_idx trace)) = trace.
Proof.
  unfold np_delete.
  induction trace as [|y1 trace IH]; [reflexivity|].
  destruct trace as [|y2 trace]; [reflexivity|].
  rewrite trace_spliced_cons2, zc_idx_cons2.
  destruct (sign_change y1 y2); cbn [app].
  - rewrite inserted_at_crossing.
    cbn [delete_from existsb Nat.eqb orb].
    rewrite existsb_eqb_0_shift.
    rewrite delete_from_passed by lia.
    rewrite !delete_from_shift, IH. reflexivity.
  - rewrite inserted_at_shift.
    cbn [delete_from]. rewrite existsb_eqb_0_shift.
    rewrite delete_from_shift, IH. reflexivity.
Qed.

Lemma trace_spliced_inserted_zero (trace : list F) :
  Forall (fun p => nth_error (trace_spliced trace) p = Some zero)
         (inserted_at (zc_idx trace)).
Proof.
  induction trace as [|y1 trace IH]; [constructor|].
  destruct trace as [|y2 trace]; [constructor|].
  rewrite trace_spliced_cons2, zc_idx_cons2.
  destruct (sign_change y1 y2); cbn [app].
  - rewrite inserted_at_crossing. constructor; [reflexivity|].
    rewrite !Forall_map. exact IH.
  - rewrite inserted_at_shift, Forall_map. exact IH.
Qed.

(** Whatever axis is passed, a returned trace is the spliced trace. *)
Lemma insert_zeros_trace_part (trace : list F) (tt_arg : option (list F))
    (trace_zi tt_zi : list F) :
  insert_zeros trace tt_arg = Ok (trace_zi, tt_zi) -> trace_zi = trace_spliced trace.
Proof.
  rewrite insert_zeros_default.
  set (axis := default_axis trace tt_arg).
  destruct (np_take axis (zc_idx trace)) as [x1|e] eqn:E1;
    [|unfold insert_zeros; cbn [default_axis]; fold axis; rewrite E1; discriminate].
  destruct (np_take axis (map S (zc_idx trace))) as [x2|e] eqn:E2;
    [|unfold insert_zeros; cbn [default_axis]; fold axis; rewrite E1, E2; discriminate].
  destruct (np_take trace (zc_idx trace)) as [y1|e] eqn:E3;
    [|unfold insert_zeros; cbn [default_axis]; fold axis;
      rewrite E1, E2, E3; discriminate].
  destruct (np_take trace (map S (zc_idx trace))) as [y2|e] eqn:E4;
    [|unfold insert_zeros; cbn [default_axis]; fold axis;
      rewrite E1, E2, E3, E4; discriminate].
  rewrite (insert_zeros_closed trace axis E1 E2 E3 E4).
  intros [= <- _].
  apply join_trace_spliced.
  apply np_take_length in E1, E2, E3, E4. rewrite length_map in E2, E4.
  repeat (rewrite zip_with_length; try lia).
Qed.

(** C1.  Length invariant: when the axis has a coordinate for every sample
    (always so for the default axis), [insert_zeros] returns, and the
    augmented trace is as long as the input trace plus the number of indices
    [i] at which the sign of [trace[i]] differs from the sign of
    [trace[i+1]], the sign of a sample being its sign bit ([np.signbit]);
    the augmented axis grows by the same number. *)
Theorem insert_zeros_length_invariant (trace : list F) (tt_arg : option (list F)) :
  axis_fits trace tt_arg ->
  exists trace_zi tt_zi,
    insert_zeros trace tt_arg = Ok (trace_zi, tt_zi) /\
    length trace_zi = length trace + sign_changes trace /\
    length tt_zi = length (default_axis trace tt_arg) + sign_changes trace.
Proof.
  intros Hfit.
  exists (trace_spliced trace), (axis_spliced trace (default_axis trace tt_arg)).
  split; [apply insert_zeros_fits, Hfit|].
  rewrite <- zc_idx_length.
  split; [apply trace_spliced_length | apply axis_spliced_length, Hfit].
Qed.

(** C2.  Ordering preservation and zero-exactness: the augmented trace is
    the input trace, every sample unchanged and in its original order, with
    points inserted between consecutive samples; every inserted point has
    amplitude exactly [zero]; and deleting the inserted points from the
    output gives back the input trace. *)
Theorem insert_zeros_only_inserts_zeros (trace : list F) (tt_arg : option (list F)) :
  axis_fits trace tt_arg ->
  exists trace_zi tt_zi,
    insert_zeros trace tt_arg = Ok (trace_zi, tt_zi) /\
    zeros_between trace trace_zi /\
    Forall (fun p => nth_error trace_zi p = Some zero) (inserted_at (zc_idx trace)) /\
    np_delete trace_zi (inserted_at (zc_idx trace)) = trace.
Proof.
  intros Hfit.
  exists (trace_spliced trace), (axis_spliced trace (default_axis trace tt_arg)).
  split; [apply insert_zeros_fits, Hfit|].
  split; [apply trace_spliced_zeros_between|].
  split; [apply trace_spliced_inserted_zero | apply trace_spliced_delete].
Qed.

Lemma same_sign_tail (y : F) (trace : list F) :
  same_sign (y :: trace) -> same_sign trace.
Proof. intros Hs a b Ha Hb. apply Hs; right; assumption. Qed.

Lemma same_sign_zc_idx (trace : list F) : same_sign trace -> zc_idx trace = [].
Proof.
  induction trace as [|y1 trace IH]; intros Hs; [reflexivity|].
  destruct trace as [|y2 trace]; [reflexivity|].
  rewrite zc_idx_cons2, (IH (same_sign_tail Hs)).
  unfold sign_change.
  rewrite (Hs y1 y2) by (simpl; auto).
  rewrite xorb_nilpotent. reflexivity.
Qed.

(** C3.  Pass-through: a trace whose samples all have the same sign comes
    back unchanged together with its axis (the default axis when none was
    given), and no exception is raised, whatever the axis. *)
Theorem insert_zeros_no_crossing (trace : list F) (tt_arg : option (list F)) :
  same_sign trace ->
  insert_zeros trace tt_arg = Ok (trace, default_axis trace tt_arg).
Proof.
  intros Hs. unfold insert_zeros.
  rewrite (same_sign_zc_idx Hs).
  cbn. rewrite !slice_all. reflexivity.
Qed.

(** *** Order of the augmented axis *)

Lemma axis_spliced_head (trace : list F) (x : F) (axis : list F) :
  exists rest, axis_spliced trace (x :: axis) = x :: rest.
Proof.
  destruct trace as [|y1 [|y2 trace]]; [eexists; reflexivity| |].
  - destruct axis; eexists; reflexivity.
  - destruct axis as [|x2 axis]; [eexists; reflexivity|].
    rewrite axis_spliced_cons2. destruct (sign_change y1 y2); eexists; reflexivity.
Qed.

Lemma non_decreasing_cons2 (x1 x2 : F) (axis : list F) :
  non_decreasing (x1 :: x2 :: axis) = leb x1 x2 && non_decreasing (x2 :: axis).
Proof. reflexivity. Qed.

(** The augmented axis is ordered as soon as the input axis is and every
    interpolated coordinate lies between the coordinates of its crossing. *)
Lemma axis_spliced_non_decreasing (trace : list F) :
  forall axis,
    non_decreasing axis = true ->
    Forall (fun g => leb (row_x1 g) (row_crossing g) = true /\
                     leb (row_crossing g) (row_x2 g) = true)
           (gathered trace axis) ->
    non_decreasing (axis_spliced trace axis) = true.
Proof.
  induction trace as [|y1 trace IH]; intros axis Hord Hbetween.
  - destruct axis; exact Hord.
  - destruct axis as [|x1 axis]; [reflexivity|].
    destruct trace as [|y2 trace].
    { destruct axis; exact Hord. }
    destruct axis as [|x2 axis]; [reflexivity|].
    rewrite axis_spliced_cons2. rewrite gathered_cons2 in Hbetween.
    rewrite non_decreasing_cons2 in Hord.
    apply andb_prop in Hord as [H12 Hord].
    destruct (axis_spliced_head (y2 :: trace) x2 axis) as [rest Erest].
    destruct (sign_change y1 y2).
    + inversion Hbetween as [|g gs [Hlo Hhi] Hrest]; subst.
      specialize (IH (x2 :: axis) Hord Hrest).
      rewrite Erest in *.
      rewrite !non_decreasing_cons2.
      unfold row_crossing, row_x1, row_x2, row_y1, row_y2 in Hlo, Hhi.
      cbn [fst snd] in Hlo, Hhi.
      rewrite Hlo, Hhi. exact IH.
    + specialize (IH (x2 :: axis) Hord Hbetween).
      rewrite Erest in *.
      rewrite non_decreasing_cons2, H12. exact IH.
Qed.

Lemma gathered_sign_change (trace : list F) :
  forall axis,
    Forall (fun g => sign_change (row_y1 g) (row_y2 g) = true) (gathered trace axis).
Proof.
  induction trace as [|y1 trace IH]; intros axis; [constructor|].
  destruct axis as [|x1 axis]; [constructor|].
  destruct trace as [|y2 trace]; [destruct axis; constructor|].
  destruct axis as [|x2 axis]; [constructor|].
  rewrite gathered_cons2.
  destruct (sign_change y1 y2) eqn:E; [constructor; [exact E|]|]; apply IH.
Qed.

Lemma gathered_ordered (trace : list F) :
  forall axis,
    non_decreasing axis = true ->
    Forall (fun g => leb (row_x1 g) (row_x2 g) = true) (gathered trace axis).
Proof.
  induction trace as [|y1 trace IH]; intros axis Hord; [constructor|].
  destruct axis as [|x1 axis]; [constructor|].
  destruct trace as [|y2 trace]; [destruct axis; constructor|].
  destruct axis as [|x2 axis]; [constructor|].
  rewrite gathered_cons2.
  rewrite non_decreasing_cons2 in Hord. apply andb_prop in Hord as [H12 Hord].
  destruct (sign_change y1 y2); [constructor; [exact H12|]|]; apply IH, Hord.
Qed.

End InsertZerosFacts.

(** ** Exact arithmetic: the interpolated coordinate lies between its samples *)

Section ExactArithmetic.
Local Open Scope R_scope.

Lemma Rleb_true (x y : R) : Exact.Rleb x y = true <-> x <= y.
Proof. unfold Exact.Rleb. destruct (Rle_dec x y); split; intros; try lra; easy. Qed.

Lemma Rsignbit_true (x : R) : Exact.Rsignbit x = true <-> x < 0.
Proof. unfold Exact.Rsignbit. destruct (Rlt_dec x 0); split; intros; try lra; easy. Qed.

Lemma Rsignbit_false (x : R) : Exact.Rsignbit x = false <-> 0 <= x.
Proof. unfold Exact.Rsignbit. destruct (Rlt_dec x 0); split; intros; try lra; easy. Qed.

(** A sign change puts the two samples on opposite sides of zero. *)
Lemma sign_change_exact (y1 y2 : R) :
  sign_change y1 y2 = true <-> (y1 < 0 <= y2) \/ (y2 < 0 <= y1).
Proof.
  unfold sign_change. cbn [signbit Exact.scalar].
  destruct (Exact.Rsignbit y2) eqn:E2, (Exact.Rsignbit y1) eqn:E1; cbn [xorb];
    repeat match goal with
           | E : Exact.Rsignbit _ = true |- _ => apply Rsignbit_true in E
           | E : Exact.Rsignbit _ = false |- _ => apply Rsignbit_false in E
           end;
    split; try discriminate; try lra; intros _; lra.
Qed.

Lemma crossing_exact (x1 x2 y1 y2 : R) :
  crossing x1 x2 y1 y2 = x1 - y1 / ((y2 - y1) / (x2 - x1)).
Proof. reflexivity. Qed.

(** Where [x1 = x2] the slope is a division by zero: [0] in the reals of the
    library, an infinity in binary64, and the coordinate is [x1] in both. *)
Lemma crossing_between (x1 x2 y1 y2 : R) :
  sign_change y1 y2 = true -> x1 <= x2 ->
  x1 <= crossing x1 x2 y1 y2 <= x2.
Proof.
  intros Hsc Hx. apply sign_change_exact in Hsc.
  rewrite crossing_exact.
  destruct (Req_dec x1 x2) as [->|Hne].
  - rewrite Rminus_diag, !Rdiv_0_r. lra.
  - assert (Hdx : 0 < x2 - x1) by lra.
    assert (Hdy : y2 - y1 <> 0) by lra.
    replace (x1 - y1 / ((y2 - y1) / (x2 - x1)))
      with (x1 + (y1 / (y1 - y2)) * (x2 - x1)) by (field; lra).
    set (t := y1 / (y1 - y2)).
    assert (Ht : t * (y1 - y2) = y1) by (unfold t; field; lra).
    assert (Hbounds : 0 <= t <= 1) by (destruct Hsc as [[? ?]|[? ?]]; split; nra).
    nra.
Qed.

Lemma gathered_between (trace axis : list R) :
  non_decreasing axis = true ->
  Forall (fun g => row_x1 g <= row_crossing g <= row_x2 g) (gathered trace axis).
Proof.
  intros Hord.
  pose proof (gathered_sign_change trace axis) as Hsc.
  pose proof (gathered_ordered trace axis Hord) as Hx.
  induction (gathered trace axis) as [|g gs IH]; [constructor|].
  inversion Hsc; inversion Hx; subst.
  constructor; [|apply IH; assumption].
  apply crossing_between; [assumption|].
  apply Rleb_true. assumption.
Qed.

Lemma seq_non_decreasing (n start : nat) :
  non_decreasing (map (fun i => IZR (Z.of_nat i)) (seq start n)) = true.
Proof.
  revert start; induction n as [|n IH]; intros start; [reflexivity|].
  cbn [seq map]. destruct n as [|n]; [reflexivity|].
  specialize (IH (S start)). cbn [seq map] in *.
  rewrite non_decreasing_cons2, IH, andb_true_r.
  apply Rleb_true, IZR_le. lia.
Qed.

(** The default axis [0, 1, ..., n-1] is always ordered. *)
Lemma np_arange_non_decreasing (n : nat) :
  non_decreasing (np_arange n : list R) = true.
Proof. apply seq_non_decreasing. Qed.

(** C5 (amended).  In exact arithmetic, for every trace whose sample axis is
    non-decreasing, [insert_zeros] returns an augmented axis that is
    non-decreasing, and every interpolated coordinate lies between the
    coordinates of the two samples it is spliced between. *)
Theorem insert_zeros_axis_ordered_exact (trace : list R) (tt_arg : option (list R)) :
  axis_fits trace tt_arg ->
  non_decreasing (default_axis trace tt_arg) = true ->
  exists trace_zi tt_zi,
    insert_zeros trace tt_arg = Ok (trace_zi, tt_zi) /\
    non_decreasing tt_zi = true /\
    Forall (fun g => row_x1 g <= row_crossing g <= row_x2 g)
           (gathered trace (default_axis trace tt_arg)).
Proof.
  intros Hfit Hord.
  exists (trace_spliced trace), (axis_spliced trace (default_axis trace tt_arg)).
  pose proof (gathered_between trace (default_axis trace tt_arg) Hord) as Hb.
  split; [apply insert_zeros_fits, Hfit|].
  split; [|exact Hb].
  apply axis_spliced_non_decreasing; [exact Hord|].
  eapply Forall_impl; [|exact Hb].
  intros g [Hlo Hhi]. split; apply Rleb_true; assumption.
Qed.


End ExactArithmetic.

(** ** Binary64: what numpy computes on concrete arrays *)

Section Binary64.
Import Float64.
Local Open Scope float_scope.


(** C4.  Interpolation correctness: the trace [[1, -1]] on the axis [[0, 1]]
    has exactly one crossing, at index 0, its interpolated coordinate is
    [0.5], and [insert_zeros] returns amplitudes [[1, 0, -1]] at coordinates
    [[0, 0.5, 1]]; column 0 of the example scenario's data matrix is that
    trace and is augmented the same way. *)
Theorem insert_zeros_midpoint_example :
  zc_idx [1; -1] = [0%nat] /\
  crossing 0 1 1 (-1) = 0.5 /\
  insert_zeros [1; -1] (Some [0; 1]) = Ok ([1; 0; -1], [0; 0.5; 1]) /\
  column 2 2 scenario_data 0 = [1; -1] /\
  insert_zeros (column 2 2 scenario_data 0) (Some scenario_tt)
  = Ok ([1; 0; -1], [0; 0.5; 1]).
Proof. repeat split; vm_compute; reflexivity. Qed.

(** In the scenario both columns cross at [0.5]; through [wiggle] (default
    stretch factor) the amplitudes are first rescaled by
    [ts * sf / global_std = 1 * 0.15 / 2], the coordinates are the same. *)
Lemma scenario_through_wiggle :
  insert_zeros (column 2 2 scenario_data 1) (Some scenario_tt)
  = Ok ([2; 0; -2], [0; 0.5; 1]) /\
  wiggle_traces (array [2; 2]%nat scenario_data) (array [2]%nat scenario_tt)
                (array [2]%nat scenario_xx) (PyFloat sf_default) (PyBool false)
  = Ok [(0, ([sf_default / 2; 0; - (sf_default / 2)], [0; 0.5; 1]));
        (1, ([sf_default; 0; - sf_default], [0; 0.5; 1]))].
Proof. split; vm_compute; reflexivity. Qed.






(** The same call with the default axis. *)
Lemma insert_zeros_zero_sample_default_axis :
  insert_zeros [1; 0; -1] None = Ok ([1; 0; 0; -1], [0; 1; 1; 2]).
Proof. vm_compute. reflexivity. Qed.

(** An axis shorter than the trace: the gather [tt[zc_idx + 1]] reads past
    its end. *)
Lemma insert_zeros_short_axis :
  insert_zeros [1; -2; 3] (Some [0; 49]) = Raise (IndexError "index out of bounds").
Proof. vm_compute. reflexivity. Qed.

(** C5, as stated, fails in binary64.  Between [0.0] and [-0.0] the sign
    bit changes but the slope is [-0.0], the interpolated coordinate is
    [0.0 / -0.0 = nan], and an axis holding [nan] is not ordered.  Away from
    zeros, rounding alone can move the coordinate past the next sample:
    [1 / (1 / 49)] is above [49]. *)
Lemma insert_zeros_axis_unordered_binary64 :
  (non_decreasing [0; 1] = true /\
   insert_zeros [0; -0] (Some [0; 1]) = Ok ([0; 0; -0], [0; nan; 1]) /\
   non_decreasing [0; nan; 1] = false) /\
  (non_decreasing [0; 49] = true /\
   insert_zeros [-1; 0x1p-100] (Some [0; 49])
   = Ok ([-1; 0; 0x1p-100], [0; 0x1.8800000000001p+5; 49]) /\
   (49 <? 0x1.8800000000001p+5) = true /\
   non_decreasing [0; 0x1.8800000000001p+5; 49] = false).
Proof. repeat split; vm_compute; reflexivity. Qed.

End Binary64.

(** ** The input checks of [wiggle_input_check] *)

Section NormalizerFacts.
Context {F : Type} `{Scalar F}.

Lemma check_tt_length (rows : nat) (tt_arg : pyval F) (tt_ : ndarray F) :
  check_tt rows tt_arg = Ok tt_ -> hd 0 (shape tt_) = rows.
Proof.
  unfold check_tt.
  destruct tt_arg as [| | | | | |a]; cbn; try discriminate.
  - intros [= <-]. reflexivity.
  - destruct (shape a) as [|n [|? ?]] eqn:Esh; try discriminate.
    destruct (Nat.eqb n rows) eqn:En; [|discriminate].
    intros [= <-]. rewrite Esh. apply Nat.eqb_eq, En.
Qed.

Lemma check_tt_length_error (rows : nat) (tt_arg : pyval F) :
  check_tt rows tt_arg = Raise (ValueError "tt must have same as data's rows") <->
  exists ta m, tt_arg = PyArray ta /\ shape ta = [m] /\ m <> rows.
Proof.
  unfold check_tt. split.
  - destruct tt_arg as [| | | | | |a]; cbn; try discriminate.
    destruct (shape a) as [|n [|? ?]] eqn:Esh; try discriminate.
    destruct (Nat.eqb n rows) eqn:En; [discriminate|].
    intros _. exists a, n. repeat split; [exact Esh|]. apply Nat.eqb_neq, En.
  - intros (ta & m & -> & Esh & Hne). cbn. rewrite Esh.
    apply Nat.eqb_neq in Hne. rewrite Hne. reflexivity.
Qed.

(** Once [tt] has passed its own check, the length test in the [xx] block
    cannot fail: it repeats the test [tt] has just passed. *)
Lemma check_xx_after_tt (rows cols : nat) (tt_arg : pyval F) (tt_ xa : ndarray F)
    (n : nat) :
  check_tt rows tt_arg = Ok tt_ -> shape xa = [n] ->
  check_xx rows cols tt_ (PyArray xa) = Ok xa.
Proof.
  intros Htt Hxa. unfold check_xx. cbn. rewrite Hxa.
  rewrite (check_tt_length _ _ Htt), Nat.eqb_refl. reflexivity.
Qed.

Lemma rescale_no_length_error (rows cols : nat) (buf xx : list F) (sf : pyval F)
    (tt_ xa : ndarray F) :
  (r <- rescale rows cols buf xx sf ;;
   let '(data, ts) := r in Ok (data, tt_, xa, ts))
  <> Raise (ValueError "tt must have same as data's rows").
Proof.
  unfold rescale, np_min, np_max, as_float64.
  destruct (np_diff xx); cbn; [discriminate|].
  destruct (np_std_axis0 rows cols buf); cbn; [discriminate|].
  destruct (as_number sf); cbn; discriminate.
Qed.

(** C8.  With [xx] a one-dimensional array, the length test of the [xx]
    block compares [tt]'s length with the number of rows of [data]: it never
    looks at [xx]'s length or at the number of columns.  So the
    length-mismatch error is raised exactly when [tt] is a one-dimensional
    array whose length differs from the row count, whatever the length of
    [xx]. *)
Theorem xx_length_check_reads_tt (data xa : ndarray F) (rows cols n : nat)
    (tt_arg sf : pyval F) (verbose : bool) :
  shape data = [rows; cols] ->
  shape xa = [n] ->
  (forall tt_ : ndarray F,
     check_xx rows cols tt_ (PyArray xa) =
     if Nat.eqb (hd 0 (shape tt_)) rows then Ok xa
     else Raise (ValueError "tt must have same as data's rows")) /\
  (wiggle_input_check (PyArray data) tt_arg (PyArray xa) sf (PyBool verbose)
   = Raise (ValueError "tt must have same as data's rows")
   <-> exists ta m, tt_arg = PyArray ta /\ shape ta = [m] /\ m <> rows).
Proof.
  intros Hdata Hxa. split.
  { intros tt_. unfold check_xx. cbn. rewrite Hxa. reflexivity. }
  rewrite <- check_tt_length_error.
  unfold wiggle_input_check. cbn [is_bool np_shape]. rewrite Hdata.
  destruct (check_tt rows tt_arg) as [tt_|e] eqn:Ett; cbn [bind].
  - rewrite (@check_xx_after_tt rows cols tt_arg tt_ xa n Ett Hxa). cbn [bind].
    split; [|discriminate].
    destruct (is_number sf); [|discriminate].
    intros E. exfalso. revert E. apply rescale_no_length_error.
  - split; intros [= ->]; reflexivity.
Qed.

(** C9 (amended).  What is rejected is a [data] that is not two-dimensional:
    a one-dimensional array, of any length, a scalar or an array of three
    or more dimensions raises [ValueError] before anything is computed. *)
Theorem wiggle_input_check_rejects_non_2d (data tt_arg xx_arg sf : pyval F)
    (verbose : bool) (data_shape : list nat) :
  np_shape data = Some data_shape ->
  length data_shape <> 2 ->
  wiggle_input_check data tt_arg xx_arg sf (PyBool verbose)
  = Raise (ValueError "data must be a 2D array").
Proof.
  intros Hsh Hdim. unfold wiggle_input_check. cbn [is_bool]. rewrite Hsh.
  destruct data_shape as [|r [|c [|d rest]]]; try reflexivity.
  exfalso. apply Hdim. reflexivity.
Qed.

Lemma np_diff_length (xx : list F) : length (np_diff xx) = length xx - 1.
Proof.
  induction xx as [|x1 xx IH]; [reflexivity|].
  destruct xx as [|x2 xx]; [reflexivity|].
  change (np_diff (x1 :: x2 :: xx)) with (sub x2 x1 :: np_diff (x2 :: xx)).
  cbn [length] in *. lia.
Qed.

(** The entries of [np.diff(xx)] are the differences of neighbours. *)
Lemma np_diff_In (xx : list F) (d : F) :
  In d (np_diff xx) <->
  exists i x1 x2,
    nth_error xx i = Some x1 /\ nth_error xx (S i) = Some x2 /\ d = sub x2 x1.
Proof.
  induction xx as [|x1 xx IH].
  - split; [intros []|]. intros (i & a & b & Hi & _). destruct i; discriminate.
  - destruct xx as [|x2 xx].
    + split; [intros []|]. intros (i & a & b & _ & Hi & _).
      destruct i; discriminate.
    + change (np_diff (x1 :: x2 :: xx)) with (sub x2 x1 :: np_diff (x2 :: xx)).
      split.
      * intros [<-|Hin]; [exists 0, x1, x2; repeat split|].
        apply IH in Hin as (i & a & b & Ha & Hb & ->).
        exists (S i), a, b. repeat split; assumption.
      * intros (i & a & b & Ha & Hb & ->). destruct i as [|i].
        -- cbn in Ha, Hb. injection Ha as <-. injection Hb as <-.
           left. reflexivity.
        -- right. apply IH. exists i, a, b. repeat split; assumption.
Qed.

Lemma np_std_axis0_length (rows cols : nat) (buf : list F) :
  length (np_std_axis0 rows cols buf) = cols.
Proof. unfold np_std_axis0. rewrite length_map, length_seq. reflexivity. Qed.

Lemma resolves_check_tt (rows : nat) (tt_arg : pyval F) (tt_ : ndarray F) :
  resolves_to rows tt_arg tt_ -> shape tt_ = [rows] -> check_tt rows tt_arg = Ok tt_.
Proof.
  intros [[-> ->]|[-> [m Hm]]] Hsh; [reflexivity|].
  unfold check_tt. cbn. rewrite Hsh, Nat.eqb_refl. reflexivity.
Qed.

Lemma resolves_check_xx (rows cols : nat) (xx_arg : pyval F) (tt_ xx : ndarray F) :
  resolves_to cols xx_arg xx -> shape tt_ = [rows] ->
  check_xx rows cols tt_ xx_arg = Ok xx.
Proof.
  intros [[-> ->]|[-> [m Hm]]] Hsh; [reflexivity|].
  unfold check_xx. cbn. rewrite Hm, Hsh. cbn. rewrite Nat.eqb_refl. reflexivity.
Qed.

(** A value with a float64 is a number. *)
Lemma as_number_is_number (sf : pyval F) (sfv : F) :
  as_number sf = Some sfv -> is_number sf = true.
Proof. destruct sf; cbn; try discriminate; reflexivity. Qed.

(** On a valid input nothing is raised, and every element of [data] goes
    through [d / data_max_std * ts * sf], evaluated left to right. *)
Lemma wiggle_input_check_valid (data : ndarray F) (tt_arg xx_arg sf : pyval F)
    (verbose : bool) (rows cols : nat) (tt_ xx : ndarray F) (sfv : F) :
  valid_input data tt_arg xx_arg sf rows cols tt_ xx sfv ->
  exists ts data_max_std : F,
    np_min (np_diff (flat xx)) = Ok ts /\
    np_max (np_std_axis0 rows cols (flat data)) = Ok data_max_std /\
    wiggle_input_check (PyArray data) tt_arg xx_arg sf (PyBool verbose)
    = Ok (mk_ndarray [rows; cols]
            (map (fun d => mul (mul (div d data_max_std) ts) sfv) (flat data)),
          tt_, xx, ts).
Proof.
  intros [Hdata Htt Httlen Hxx Hsf Hspacing Hcols].
  destruct (np_min (np_diff (flat xx))) as [ts|e] eqn:Ets.
  2:{ pose proof (np_diff_length (flat xx)) as Hl.
      destruct (np_diff (flat xx)); [simpl in Hl; lia|discriminate]. }
  destruct (np_max (np_std_axis0 rows cols (flat data))) as [g|e] eqn:Eg.
  2:{ pose proof (np_std_axis0_length rows cols (flat data)) as Hl.
      destruct (np_std_axis0 rows cols (flat data)); [simpl in Hl; lia|discriminate]. }
  exists ts, g. split; [reflexivity|]. split; [reflexivity|].
  unfold wiggle_input_check. cbn [is_bool np_shape]. rewrite Hdata.
  rewrite (@resolves_check_tt rows tt_arg tt_ Htt Httlen). cbn [bind].
  rewrite (@resolves_check_xx rows cols xx_arg tt_ xx Hxx Httlen). cbn [bind].
  rewrite (as_number_is_number _ Hsf).
  unfold rescale, as_float64. rewrite Ets, Eg, Hsf. reflexivity.
Qed.

End NormalizerFacts.

(** ** Exact arithmetic: the rescaling of [wiggle_input_check] *)

Section ExactNormalizer.
Local Open Scope R_scope.

Lemma fold_Rmin_spec (l : list R) :
  forall x, In (fold_left Rmin l x) (x :: l) /\
            Forall (fun y => fold_left Rmin l x <= y) (x :: l).
Proof.
  induction l as [|y l IH]; intros x.
  - split; [left; reflexivity|]. constructor; [cbn; lra | constructor].
  - cbn [fold_left]. destruct (IH (Rmin x y)) as [Hin Hall]. split.
    + destruct Hin as [E|Hin]; [|right; right; exact Hin].
      rewrite <- E. unfold Rmin. destruct (Rle_dec x y); [left|right; left]; reflexivity.
    + inversion Hall as [|? ? Hhd Htl]; subst.
      pose proof (Rmin_l x y). pose proof (Rmin_r x y).
      constructor; [lra|]. constructor; [lra|]. exact Htl.
Qed.

Lemma fold_Rmax_spec (l : list R) :
  forall x, In (fold_left Rmax l x) (x :: l) /\
            Forall (fun y => y <= fold_left Rmax l x) (x :: l).
Proof.
  induction l as [|y l IH]; intros x.
  - split; [left; reflexivity|]. constructor; [cbn; lra | constructor].
  - cbn [fold_left]. destruct (IH (Rmax x y)) as [Hin Hall]. split.
    + destruct Hin as [E|Hin]; [|right; right; exact Hin].
      rewrite <- E. unfold Rmax. destruct (Rle_dec x y); [right; left|left]; reflexivity.
    + inversion Hall as [|? ? Hhd Htl]; subst.
      pose proof (Rmax_l x y). pose proof (Rmax_r x y).
      constructor; [lra|]. constructor; [lra|]. exact Htl.
Qed.

(** [np.min] returns the least element, [np.max] the greatest. *)
Lemma np_min_least (l : list R) (m : R) :
  np_min l = Ok m -> In m l /\ Forall (fun y => m <= y) l.
Proof.
  destruct l as [|x l]; [discriminate|]. intros [= <-]. apply fold_Rmin_spec.
Qed.

Lemma np_max_greatest (l : list R) (m : R) :
  np_max l = Ok m -> In m l /\ Forall (fun y => y <= m) l.
Proof.
  destruct l as [|x l]; [discriminate|]. intros [= <-]. apply fold_Rmax_spec.
Qed.

(** *** numpy's deviation is the standard deviation *)

Lemma fold_left_Rplus (l : list R) :
  forall x, fold_left Rplus l x = x + fold_right Rplus 0 l.
Proof.
  induction l as [|y l IH]; intros x; cbn [fold_left fold_right]; [lra|].
  rewrite IH. lra.
Qed.

Lemma np_mean_arithmetic_mean (a : list R) : np_mean a = arithmetic_mean a.
Proof.
  unfold np_mean, arithmetic_mean. cbn [div of_Z Exact.scalar].
  rewrite <- INR_IZR_INZ. f_equal.
  destruct a as [|x a]; [reflexivity|].
  cbn [np_sum add Exact.scalar fold_right]. apply fold_left_Rplus.
Qed.

Lemma np_std_standard_deviation (a : list R) : np_std a = standard_deviation a.
Proof.
  unfold np_std, standard_deviation. cbn [sqrt sub mul Exact.scalar].
  rewrite map_map, !np_mean_arithmetic_mean. do 2 f_equal.
  apply map_ext. intros x. ring.
Qed.

Lemma np_std_axis0_In (rows cols : nat) (buf : list R) (s : R) :
  In s (np_std_axis0 rows cols buf) <->
  exists j, (j < cols)%nat /\ s = standard_deviation (column rows cols buf j).
Proof.
  unfold np_std_axis0. rewrite in_map_iff. split.
  - intros (j & <- & Hj). apply in_seq in Hj. exists j.
    split; [lia | apply np_std_standard_deviation].
  - intros (j & Hj & ->). exists j.
    split; [apply np_std_standard_deviation | apply in_seq; lia].
Qed.

(** With a column that is not constant, the largest deviation is positive:
    line 98 divides by a number that is not zero. *)
Lemma global_std_positive (rows cols : nat) (buf : list R) (g : R) :
  varies rows cols buf -> np_max (np_std_axis0 rows cols buf) = Ok g -> 0 < g.
Proof.
  intros (j & Hj & Hne) Eg.
  apply np_max_greatest in Eg as [_ Hall]. rewrite Forall_forall in Hall.
  assert (Hle : standard_deviation (column rows cols buf j) <= g).
  { apply Hall, (proj2 (np_std_axis0_In _ _ _ _)).
    exists j. split; [exact Hj | reflexivity]. }
  assert (Hpos : 0 <= standard_deviation (column rows cols buf j))
    by apply sqrt_pos.
  lra.
Qed.

(** C6 (amended).  In exact arithmetic, on a valid input with a column that
    is not constant, the normalizer returns [data] with every element
    multiplied by [traceSpacing * scaleFactor / globalStd], together with
    [tt], [xx] and [traceSpacing] themselves.  [traceSpacing] is the least
    difference [xx[i+1] - xx[i]]; [globalStd] is the greatest standard
    deviation of a column, and is positive. *)
Theorem wiggle_input_check_rescales (data : ndarray R) (tt_arg xx_arg sf : pyval R)
    (verbose : bool) (rows cols : nat) (tt_ xx : ndarray R) (scaleFactor : R) :
  valid_input data tt_arg xx_arg sf rows cols tt_ xx scaleFactor ->
  varies rows cols (flat data) ->
  exists traceSpacing globalStd : R,
    (exists i x1 x2,
       nth_error (flat xx) i = Some x1 /\ nth_error (flat xx) (S i) = Some x2 /\
       traceSpacing = x2 - x1) /\
    (forall i x1 x2,
       nth_error (flat xx) i = Some x1 -> nth_error (flat xx) (S i) = Some x2 ->
       traceSpacing <= x2 - x1) /\
    (exists j, (j < cols)%nat /\
               globalStd = standard_deviation (column rows cols (flat data) j)) /\
    (forall j, (j < cols)%nat ->
               standard_deviation (column rows cols (flat data) j) <= globalStd) /\
    0 < globalStd /\
    wiggle_input_check (PyArray data) tt_arg xx_arg sf (PyBool verbose)
    = Ok (mk_ndarray [rows; cols]
            (map (fun d => d * (traceSpacing * scaleFactor / globalStd)) (flat data)),
          tt_, xx, traceSpacing).
Proof.
  intros Hvalid Hvar.
  destruct (wiggle_input_check_valid verbose Hvalid) as (ts & g & Ets & Eg & Eout).
  exists ts, g.
  destruct (np_min_least _ Ets) as [Hts Hleast].
  destruct (np_max_greatest _ Eg) as [Hg Hgreatest].
  rewrite Forall_forall in Hleast, Hgreatest.
  split; [exact (proj1 (np_diff_In _ _) Hts)|].
  split.
  { intros i x1 x2 H1 H2. apply Hleast, (proj2 (np_diff_In _ _)).
    exists i, x1, x2. repeat split; assumption. }
  split; [exact (proj1 (np_std_axis0_In _ _ _ _) Hg)|].
  split.
  { intros j Hj. apply Hgreatest, (proj2 (np_std_axis0_In _ _ _ _)).
    exists j. split; [exact Hj | reflexivity]. }
  split; [exact (global_std_positive Hvar Eg)|].
  rewrite Eout. do 5 f_equal.
  apply map_ext. intros d. cbn [mul div Exact.scalar]. unfold Rdiv. ring.
Qed.

(** *** Scaling the amplitudes by a positive constant *)

Lemma fold_Rplus_scale (c : R) (l : list R) :
  forall x, fold_left Rplus (map (Rmult c) l) (c * x) = c * fold_left Rplus l x.
Proof.
  induction l as [|y l IH]; intros x; [reflexivity|].
  cbn [map fold_left]. rewrite <- Rmult_plus_distr_l. apply IH.
Qed.

Lemma np_sum_scale (c : R) (l : list R) :
  np_sum (map (Rmult c) l) = c * np_sum l.
Proof.
  destruct l as [|x l]; cbn [map np_sum zero add Exact.scalar]; [ring|].
  apply fold_Rplus_scale.
Qed.

Lemma np_mean_scale (c : R) (l : list R) :
  np_mean (map (Rmult c) l) = c * np_mean l.
Proof.
  unfold np_mean. rewrite np_sum_scale, length_map.
  cbn [div Exact.scalar]. unfold Rdiv. ring.
Qed.

Lemma np_std_scale (c : R) (l : list R) :
  0 <= c -> np_std (map (Rmult c) l) = c * np_std l.
Proof.
  intros Hc. unfold np_std. rewrite np_mean_scale.
  cbn [sqrt sub mul Exact.scalar].
  rewrite !map_map.
  replace (map (fun v => (c * v - c * np_mean l) * (c * v - c * np_mean l)) l)
    with (map (Rmult (c * c)) (map (fun v => (v - np_mean l) * (v - np_mean l)) l)).
  2:{ rewrite map_map. apply map_ext. intros v. ring. }
  rewrite np_mean_scale.
  rewrite sqrt_mult_alt by nra.
  rewrite sqrt_square by exact Hc.
  reflexivity.
Qed.

Lemma column_scale (c : R) (rows cols : nat) (buf : list R) (ntr : nat) :
  column rows cols (map (Rmult c) buf) ntr = map (Rmult c) (column rows cols buf ntr).
Proof.
  unfold column. rewrite map_map. apply map_ext. intros i.
  cbn [zero Exact.scalar].
  replace 0 with (c * 0) at 1 by ring.
  apply map_nth.
Qed.

Lemma np_std_axis0_scale (c : R) (rows cols : nat) (buf : list R) :
  0 <= c ->
  np_std_axis0 rows cols (map (Rmult c) buf)
  = map (Rmult c) (np_std_axis0 rows cols buf).
Proof.
  intros Hc. unfold np_std_axis0. rewrite map_map. apply map_ext. intros ntr.
  rewrite column_scale. apply np_std_scale, Hc.
Qed.

Lemma fold_Rmax_scale (c : R) (l : list R) :
  0 <= c ->
  forall x, fold_left Rmax (map (Rmult c) l) (c * x) = c * fold_left Rmax l x.
Proof.
  intros Hc. induction l as [|y l IH]; intros x; [reflexivity|].
  cbn [map fold_left]. rewrite RmaxRmult by exact Hc. apply IH.
Qed.

Lemma np_max_scale (c : R) (l : list R) :
  0 <= c ->
  np_max (map (Rmult c) l) = (g <- np_max l ;; Ok (c * g)).
Proof.
  intros Hc. destruct l as [|x l]; [reflexivity|].
  cbn [map np_max bind maximum Exact.scalar].
  rewrite fold_Rmax_scale by exact Hc. reflexivity.
Qed.

Lemma rescale_scale (c : R) (rows cols : nat) (buf xx : list R) (sf : pyval R) :
  0 < c ->
  rescale rows cols (map (Rmult c) buf) xx sf = rescale rows cols buf xx sf.
Proof.
  intros Hc. unfold rescale.
  destruct (np_min (np_diff xx)) as [ts|e]; [|reflexivity]. cbn [bind].
  rewrite np_std_axis0_scale, np_max_scale by lra.
  destruct (np_max (np_std_axis0 rows cols buf)) as [g|e]; [|reflexivity].
  cbn [bind].
  destruct (as_float64 sf) as [sfv|e]; [|reflexivity].
  cbn [bind]. do 3 f_equal.
  rewrite map_map. apply map_ext. intros d.
  cbn [mul div Exact.scalar]. unfold Rdiv.
  rewrite Rinv_mult.
  replace (c * d * (/ c * / g)) with (c * / c * (d * / g)) by ring.
  rewrite Rinv_r by lra. ring.
Qed.

Lemma wiggle_input_check_scale (c : R) (data : ndarray R)
    (tt_arg xx_arg sf verbose : pyval R) :
  0 < c ->
  wiggle_input_check (PyArray (scale_array c data)) tt_arg xx_arg sf verbose
  = wiggle_input_check (PyArray data) tt_arg xx_arg sf verbose.
Proof.
  intros Hc. unfold wiggle_input_check, scale_array.
  cbn [np_shape shape flat mul Exact.scalar].
  destruct (is_bool verbose); [|reflexivity].
  destruct (shape data) as [|rows [|cols [|? ?]]]; try reflexivity.
  destruct (check_tt rows tt_arg) as [tt_|e]; [|reflexivity]. cbn [bind].
  destruct (check_xx rows cols tt_ xx_arg) as [xx|e]; [|reflexivity]. cbn [bind].
  destruct (is_number sf); [|reflexivity].
  rewrite rescale_scale by exact Hc. reflexivity.
Qed.

Lemma wiggle_input_check_stretch (data : ndarray R) (tt_arg xx_arg verbose : pyval R)
    (s k : R) (out tt_ xx : ndarray R) (ts : R) :
  wiggle_input_check (PyArray data) tt_arg xx_arg (PyFloat s) verbose
  = Ok (out, tt_, xx, ts) ->
  wiggle_input_check (PyArray data) tt_arg xx_arg (PyFloat (s / k)) verbose
  = Ok (divide_array out k, tt_, xx, ts).
Proof.
  unfold wiggle_input_check. cbn [np_shape is_number].
  destruct (is_bool verbose); [|discriminate].
  destruct (shape data) as [|rows [|cols [|? ?]]]; try discriminate.
  destruct (check_tt rows tt_arg) as [tt0|e]; [|discriminate]. cbn [bind].
  destruct (check_xx rows cols tt0 xx_arg) as [xx0|e]; [|discriminate]. cbn [bind].
  unfold rescale, as_float64. cbn [as_number].
  destruct (np_min (np_diff (flat xx0))) as [ts0|e]; [|discriminate]. cbn [bind].
  destruct (np_max (np_std_axis0 rows cols (flat data))) as [g|e]; [|discriminate].
  cbn [bind]. intros [= <- <- <- <-].
  unfold divide_array. cbn [shape flat].
  do 5 f_equal. rewrite map_map. apply map_ext. intros d.
  cbn [mul div Exact.scalar]. unfold Rdiv. ring.
Qed.

(** C7 (amended).  Multiplying every amplitude by a positive constant [c]
    leaves the normalized output unchanged when the stretch factor is kept:
    the largest column deviation grows by [c] as well.  Dividing the stretch
    factor by [c] on top of that divides the normalized output by [c]. *)
Theorem rescaling_absorbs_amplitude_scale (c : R) (data : ndarray R)
    (tt_arg xx_arg sf verbose : pyval R) (scaleFactor : R) :
  0 < c ->
  wiggle_input_check (PyArray (scale_array c data)) tt_arg xx_arg sf verbose
  = wiggle_input_check (PyArray data) tt_arg xx_arg sf verbose /\
  (forall (out tt_ xx : ndarray R) (ts : R),
     wiggle_input_check (PyArray data) tt_arg xx_arg (PyFloat scaleFactor) verbose
     = Ok (out, tt_, xx, ts) ->
     wiggle_input_check (PyArray (scale_array c data)) tt_arg xx_arg
                        (PyFloat (scaleFactor / c)) verbose
     = Ok (divide_array out c, tt_, xx, ts)).
Proof.
  intros Hc. split; [apply wiggle_input_check_scale, Hc|].
  intros out tt_ xx ts Hout.
  rewrite wiggle_input_check_scale by exact Hc.
  apply wiggle_input_check_stretch, Hout.
Qed.

End ExactNormalizer.

(** ** Binary64: the normalizer on concrete arrays *)

Section Binary64Normalizer.
Import Float64.
Local Open Scope float_scope.

(** C7, as stated, fails.  With [c = 2] the data [[1, 2], [-1, -2]] becomes
    [[2, 4], [-2, -4]]; its largest column deviation doubles, so with the
    stretch factor halved the normalized amplitudes are halved too. *)
Lemma normalized_output_changes_with_scale :
  wiggle_input_check (array [2; 2]%nat scenario_data) (array [2]%nat scenario_tt)
                     (array [2]%nat scenario_xx) (PyFloat 1) (PyBool false)
  = Ok (mk_ndarray [2; 2]%nat [0.5; 1; -0.5; -1],
        mk_ndarray [2]%nat scenario_tt, mk_ndarray [2]%nat scenario_xx, 1) /\
  wiggle_input_check (array [2; 2]%nat (map (PrimFloat.mul 2) scenario_data))
                     (array [2]%nat scenario_tt) (array [2]%nat scenario_xx)
                     (PyFloat (1 / 2)) (PyBool false)
  = Ok (mk_ndarray [2; 2]%nat [0.25; 0.5; -0.25; -0.5],
        mk_ndarray [2]%nat scenario_tt, mk_ndarray [2]%nat scenario_xx, 1) /\
  wiggle_input_check (array [2; 2]%nat (map (PrimFloat.mul 2) scenario_data))
                     (array [2]%nat scenario_tt) (array [2]%nat scenario_xx)
                     (PyFloat (1 / 2)) (PyBool false)
  <> wiggle_input_check (array [2; 2]%nat scenario_data) (array [2]%nat scenario_tt)
                        (array [2]%nat scenario_xx) (PyFloat 1) (PyBool false).
Proof.
  split; [vm_compute; reflexivity|].
  split; [vm_compute; reflexivity|].
  intros E.
  apply (f_equal (fun r : result (ndarray float * ndarray float * ndarray float * float) =>
                    match r with
                    | Ok (d, _, _, _) =>
                        match flat d with
                        | x :: _ => (x =? 0.5)
                        | [] => false
                        end
                    | Raise _ => false
                    end)) in E.
  vm_compute in E. discriminate E.
Qed.

(** C6, as stated, fails in binary64.  Line 98 is [data / data_max_std * ts
    * sf]: each element is divided first, and the result is rounded after
    each of the three operations.  With spacing 7, stretch factor 0.1 and
    largest deviation 3, the element 1 becomes [1 / 3 * 7 * 0.1], one unit
    in the last place away from [1 * (7 * 0.1 / 3)]. *)
Lemma wiggle_input_check_rounds_each_step :
  np_min (np_diff [0; 7]) = Ok 7 /\
  np_max (np_std_axis0 2 2 [3; 1; -3; -1]) = Ok 3 /\
  wiggle_input_check (array [2; 2]%nat [3; 1; -3; -1]) PyNone
                     (array [2]%nat [0; 7]) (PyFloat 0x1.999999999999ap-4)
                     (PyBool false)
  = Ok (mk_ndarray [2; 2]%nat
          [0x1.6666666666667p-1; 0x1.dddddddddddddp-3;
           -0x1.6666666666667p-1; -0x1.dddddddddddddp-3],
        mk_ndarray [2]%nat [0; 1], mk_ndarray [2]%nat [0; 7], 7) /\
  1 / 3 * 7 * 0x1.999999999999ap-4 = 0x1.dddddddddddddp-3 /\
  1 * (7 * 0x1.999999999999ap-4 / 3) = 0x1.ddddddddddddfp-3 /\
  (0x1.dddddddddddddp-3 =? 0x1.ddddddddddddfp-3) = false.
Proof. repeat split; vm_compute; reflexivity. Qed.

(** A Python int as stretch factor is converted when the product of line 98
    is formed: [2**63] multiplies as the float64 [2^63], and an int that
    float64 cannot hold raises [OverflowError], after [np.min] and [np.max]
    have had their turn. *)
Lemma wiggle_input_check_int_stretch :
  float_of_Z (2 ^ 63) = 0x1p63 /\
  float_of_Z (2 ^ 1024 - 2 ^ 970 - 1) = 0x1.fffffffffffffp+1023 /\
  float_of_Z (2 ^ 1024 - 2 ^ 970) = infinity /\
  wiggle_input_check (array [2; 2]%nat scenario_data) PyNone PyNone
                     (PyInt (2 ^ 63)) (PyBool false)
  = Ok (mk_ndarray [2; 2]%nat [0x1p62; 0x1p63; -0x1p62; -0x1p63],
        mk_ndarray [2]%nat [0; 1], mk_ndarray [2]%nat [0; 1], 1) /\
  wiggle_input_check (array [2; 2]%nat scenario_data) PyNone PyNone
                     (PyInt (10 ^ 400)) (PyBool false)
  = Raise (OverflowError "int too large to convert to float") /\
  wiggle_input_check (array [2; 2]%nat scenario_data) PyNone
                     (array [1]%nat [0]) (PyInt (10 ^ 400)) (PyBool false)
  = Raise (ValueError "zero-size array to reduction operation minimum which has no identity").
Proof. repeat split; vm_compute; reflexivity. Qed.

(** C9, as stated, fails.  A two-dimensional array with one row, or with no
    row at all, passes every check: the deviation of each column is [0.0]
    (or [nan]) and the call returns. *)
Lemma wiggle_input_check_accepts_short_data :
  (well_formed (mk_ndarray [1; 2]%nat [1; 2]) /\
   wiggle_input_check (array [1; 2]%nat [1; 2]) PyNone PyNone
                      (PyFloat sf_default) (PyBool false)
   = Ok (mk_ndarray [1; 2]%nat [infinity; infinity],
         mk_ndarray [1]%nat [0], mk_ndarray [2]%nat [0; 1], 1)) /\
  (well_formed (mk_ndarray [0; 2]%nat (@nil float)) /\
   wiggle_input_check (array [0; 2]%nat []) PyNone PyNone
                      (PyFloat sf_default) (PyBool false)
   = Ok (mk_ndarray [0; 2]%nat [],
         mk_ndarray [0]%nat [], mk_ndarray [2]%nat [0; 1], 1)).
Proof. repeat split; vm_compute; reflexivity. Qed.

(** What the [xx] check lets through: three trace coordinates for two
    columns are accepted; a single coordinate is accepted by the check and
    fails later, in [np.min]; and [wiggle] reads past a short [xx]. *)
Lemma xx_length_mismatch_examples :
  wiggle_input_check (array [2; 2]%nat scenario_data) PyNone
                     (array [3]%nat [0; 1; 5]) (PyInt 1) (PyBool false)
  = Ok (mk_ndarray [2; 2]%nat [0.5; 1; -0.5; -1],
        mk_ndarray [2]%nat [0; 1], mk_ndarray [3]%nat [0; 1; 5], 1) /\
  check_xx 2 2 (arange_array 2) (array [1]%nat [0]) = Ok (mk_ndarray [1]%nat [0]) /\
  wiggle_input_check (array [2; 2]%nat scenario_data) PyNone
                     (array [1]%nat [0]) (PyInt 1) (PyBool false)
  = Raise (ValueError "zero-size array to reduction operation minimum which has no identity") /\
  wiggle_traces (array [2; 3]%nat [1; 2; 3; -1; -2; 3]) PyNone
                (array [2]%nat [0; 1]) (PyInt 1) (PyBool false)
  = Raise (IndexError "index out of bounds").
Proof. repeat split; vm_compute; reflexivity. Qed.

End Binary64Normalizer.

(** ** The theorems at concrete inputs *)

Section Witnesses.
Import Float64.

(** The length invariant on the trace [[1, -1]] with axis [[0, 1]]. *)
Lemma insert_zeros_length_invariant_witness :
  axis_fits [1; -1]%float (Some [0; 1]%float) /\
  exists trace_zi tt_zi,
    insert_zeros [1; -1]%float (Some [0; 1]%float) = Ok (trace_zi, tt_zi) /\
    length trace_zi = 2 + sign_changes [1; -1]%float /\
    length tt_zi = 2 + sign_changes [1; -1]%float.
Proof.
  assert (Hfit : axis_fits [1; -1]%float (Some [0; 1]%float))
    by (unfold axis_fits; simpl; lia).
  split; [exact Hfit|].
  exact (@insert_zeros_length_invariant float Float64.scalar
           [1; -1]%float (Some [0; 1]%float) Hfit).
Defined.

(** Only zeros are inserted into [[1, -1, 2]], on the default axis. *)
Lemma insert_zeros_only_inserts_zeros_witness :
  axis_fits [1; -1; 2]%float None /\
  exists trace_zi tt_zi,
    insert_zeros [1; -1; 2]%float None = Ok (trace_zi, tt_zi) /\
    zeros_between [1; -1; 2]%float trace_zi /\
    Forall (fun p => nth_error trace_zi p = Some zero)
           (inserted_at (zc_idx [1; -1; 2]%float)) /\
    np_delete trace_zi (inserted_at (zc_idx [1; -1; 2]%float)) = [1; -1; 2]%float.
Proof.
  assert (Hfit : axis_fits [1; -1; 2]%float None)
    by (unfold axis_fits; simpl; lia).
  split; [exact Hfit|].
  exact (@insert_zeros_only_inserts_zeros float Float64.scalar
           [1; -1; 2]%float None Hfit).
Defined.

(** The all-positive trace [[1, 2, 3]] passes through. *)
Lemma insert_zeros_no_crossing_witness :
  same_sign [1; 2; 3]%float /\
  insert_zeros [1; 2; 3]%float (Some [0; 1; 2]%float)
  = Ok ([1; 2; 3]%float, [0; 1; 2]%float).
Proof.
  assert (Hs : same_sign [1; 2; 3]%float).
  { intros y1 y2 H1 H2. simpl in H1, H2.
    destruct H1 as [<-|[<-|[<-|[]]]]; destruct H2 as [<-|[<-|[<-|[]]]]; reflexivity. }
  split; [exact Hs|].
  exact (@insert_zeros_no_crossing float Float64.scalar
           [1; 2; 3]%float (Some [0; 1; 2]%float) Hs).
Defined.

(** The ordered axis [[0, 1]] stays ordered around the crossing of
    [[1, -1]]. *)
Lemma insert_zeros_axis_ordered_exact_witness :
  axis_fits [1; -1]%R (Some [0; 1]%R) /\
  non_decreasing [0; 1]%R = true /\
  exists trace_zi tt_zi,
    insert_zeros [1; -1]%R (Some [0; 1]%R) = Ok (trace_zi, tt_zi) /\
    non_decreasing tt_zi = true /\
    Forall (fun g => (row_x1 g <= row_crossing g <= row_x2 g)%R)
           (gathered [1; -1]%R [0; 1]%R).
Proof.
  assert (Hfit : axis_fits [1; -1]%R (Some [0; 1]%R))
    by (unfold axis_fits; simpl; lia).
  assert (Hord : non_decreasing [0; 1]%R = true).
  { cbn. apply andb_true_intro. split; [apply Rleb_true; lra|reflexivity]. }
  split; [exact Hfit|]. split; [exact Hord|].
  exact (@insert_zeros_axis_ordered_exact [1; -1]%R (Some [0; 1]%R) Hfit Hord).
Defined.

(** The deviation of the column [[1, -1]] is 1. *)
Lemma standard_deviation_example : standard_deviation [1; -1]%R = 1%R.
Proof.
  unfold standard_deviation, arithmetic_mean. cbn.
  match goal with
  | |- R_sqrt.sqrt ?x = _ => replace x with 1%R by lra
  end.
  apply sqrt_1.
Qed.

(** The scenario's data, default [tt], the axis [[0, 1]] as [xx] and the
    stretch factor [3/20]. *)
Lemma wiggle_input_check_rescales_witness :
  exists traceSpacing globalStd : R,
    (exists i x1 x2,
       nth_error [0; 1]%R i = Some x1 /\ nth_error [0; 1]%R (S i) = Some x2 /\
       traceSpacing = (x2 - x1)%R) /\
    (forall i x1 x2,
       nth_error [0; 1]%R i = Some x1 -> nth_error [0; 1]%R (S i) = Some x2 ->
       (traceSpacing <= x2 - x1)%R) /\
    (exists j, j < 2 /\
               globalStd = standard_deviation (column 2 2 [1; 2; -1; -2]%R j)) /\
    (forall j, j < 2 ->
               (standard_deviation (column 2 2 [1; 2; -1; -2]%R j) <= globalStd)%R) /\
    (0 < globalStd)%R /\
    wiggle_input_check (PyArray (mk_ndarray [2; 2] [1; 2; -1; -2]%R))
                       PyNone (PyArray (mk_ndarray [2] [0; 1]%R))
                       (PyFloat (3 / 20)%R) (PyBool false)
    = Ok (mk_ndarray [2; 2]
            (map (fun d => d * (traceSpacing * (3 / 20) / globalStd))%R
                 [1; 2; -1; -2]%R),
          arange_array 2, mk_ndarray [2] [0; 1]%R, traceSpacing).
Proof.
  apply (@wiggle_input_check_rescales
           (mk_ndarray [2; 2] [1; 2; -1; -2]%R)
           PyNone (PyArray (mk_ndarray [2] [0; 1]%R)) (PyFloat (3 / 20)%R)
           false 2 2 (arange_array 2) (mk_ndarray [2] [0; 1]%R) (3 / 20)%R).
  - constructor.
    + reflexivity.
    + left. split; reflexivity.
    + reflexivity.
    + right. split; [reflexivity|]. exists 2. reflexivity.
    + reflexivity.
    + simpl. lia.
    + lia.
  - exists 0. split; [lia|].
    change (column 2 2 (flat (mk_ndarray [2; 2] [1; 2; -1; -2]%R)) 0)
      with [1; -1]%R.
    rewrite standard_deviation_example. lra.
Defined.

(** Doubling the scenario's data changes nothing for a fixed stretch
    factor. *)
Lemma rescaling_absorbs_amplitude_scale_witness :
  (0 < 2)%R /\
  wiggle_input_check
    (PyArray (scale_array 2%R (mk_ndarray [2; 2] [1; 2; -1; -2]%R)))
    PyNone PyNone (PyFloat 1%R) (PyBool false)
  = wiggle_input_check (PyArray (mk_ndarray [2; 2] [1; 2; -1; -2]%R))
    PyNone PyNone (PyFloat 1%R) (PyBool false) /\
  (forall (out tt_ xx : ndarray R) (ts : R),
     wiggle_input_check (PyArray (mk_ndarray [2; 2] [1; 2; -1; -2]%R))
       PyNone PyNone (PyFloat 1%R) (PyBool false)
     = Ok (out, tt_, xx, ts) ->
     wiggle_input_check
       (PyArray (scale_array 2%R (mk_ndarray [2; 2] [1; 2; -1; -2]%R)))
       PyNone PyNone (PyFloat (1 / 2)%R) (PyBool false)
     = Ok (divide_array out 2%R, tt_, xx, ts)).
Proof.
  assert (Hc : (0 < 2)%R) by lra.
  split; [exact Hc|].
  exact (@rescaling_absorbs_amplitude_scale 2%R
           (mk_ndarray [2; 2] [1; 2; -1; -2]%R)
           PyNone PyNone (PyFloat 1%R) (PyBool false) 1%R Hc).
Defined.

(** Five trace coordinates for two columns, and three sample coordinates
    for two rows: the error is about [tt]. *)
Lemma xx_length_check_reads_tt_witness :
  (forall tt_ : ndarray float,
     check_xx 2 2 tt_ (array [5] [0; 1; 2; 3; 4]%float) =
     if Nat.eqb (hd 0 (shape tt_)) 2
     then Ok (mk_ndarray [5] [0; 1; 2; 3; 4]%float)
     else Raise (ValueError "tt must have same as data's rows")) /\
  (wiggle_input_check (array [2; 2] scenario_data) (array [3] [0; 1; 2]%float)
                      (array [5] [0; 1; 2; 3; 4]%float) (PyInt 1) (PyBool false)
   = Raise (ValueError "tt must have same as data's rows")
   <-> exists ta m, array [3] [0; 1; 2]%float = PyArray ta /\ shape ta = [m] /\ m <> 2).
Proof.
  exact (@xx_length_check_reads_tt float Float64.scalar
           (mk_ndarray [2; 2] scenario_data)
           (mk_ndarray [5] [0; 1; 2; 3; 4]%float) 2 2 5
           (array [3] [0; 1; 2]%float) (PyInt 1) false
           eq_refl eq_refl).
Defined.

(** A one-dimensional array of three samples, and an empty one. *)
Lemma wiggle_input_check_rejects_non_2d_witness :
  wiggle_input_check (array [3] [1; -1; 1]%float) PyNone PyNone
                     (PyFloat sf_default) (PyBool false)
  = Raise (ValueError "data must be a 2D array") /\
  wiggle_input_check (array [0] (@nil float)) PyNone PyNone
                     (PyFloat sf_default) (PyBool false)
  = Raise (ValueError "data must be a 2D array").
Proof.
  split.
  - apply (@wiggle_input_check_rejects_non_2d float Float64.scalar
             (array [3] [1; -1; 1]%float) PyNone PyNone (PyFloat sf_default)
             false [3] eq_refl).
    simpl. lia.
  - apply (@wiggle_input_check_rejects_non_2d float Float64.scalar
             (array [0] (@nil float)) PyNone PyNone (PyFloat sf_default)
             false [0] eq_refl).
    simpl. lia.
Defined.

End Witnesses.

(** ** More on [insert_zeros]: the axis, the index error, a second pass *)

Section InsertZerosMore.
Context {F : Type} `{Scalar F}.

Lemma delete_from_none {X : Type} (a : list X) :
  forall i, delete_from i [] a = a.
Proof.
  induction a as [|x a IH]; intros i; [reflexivity|].
  cbn [delete_from existsb]. rewrite IH. reflexivity.
Qed.

Lemma axis_spliced_delete (trace : list F) :
  forall axis, length trace <= length axis ->
    np_delete (axis_spliced trace axis) (inserted_at (zc_idx trace)) = axis.
Proof.
  unfold np_delete.
  induction trace as [|y1 trace IH]; intros axis Hlen.
  - destruct axis; apply delete_from_none.
  - destruct axis as [|x1 axis]; [simpl in Hlen; lia|].
    destruct trace as [|y2 trace].
    { rewrite zc_idx_single. destruct axis; apply delete_from_none. }
    destruct axis as [|x2 axis]; [simpl in Hlen; lia|].
    rewrite axis_spliced_cons2, zc_idx_cons2.
    specialize (IH (x2 :: axis) ltac:(simpl in *; lia)).
    destruct (sign_change y1 y2); cbn [app].
    + rewrite inserted_at_crossing.
      cbn [delete_from existsb Nat.eqb orb].
      rewrite existsb_eqb_0_shift.
      rewrite delete_from_passed by lia.
      rewrite !delete_from_shift, IH. reflexivity.
    + rewrite inserted_at_shift.
      cbn [delete_from]. rewrite existsb_eqb_0_shift.
      rewrite delete_from_shift, IH. reflexivity.
Qed.

Lemma trace_spliced_head (y : F) (trace : list F) :
  exists rest, trace_spliced (y :: trace) = y :: rest.
Proof.
  destruct trace as [|y2 trace]; [eexists; reflexivity|].
  rewrite trace_spliced_cons2. destruct (sign_change y y2); eexists; reflexivity.
Qed.

Lemma crossing_at_shift (x y : F) (trace_zi tt_zi : list F) (p : nat) :
  crossing_at trace_zi tt_zi p -> crossing_at (y :: trace_zi) (x :: tt_zi) (S p).
Proof.
  intros (x1 & x2 & y1 & y2 & Hp & Hx1 & Hx2 & Hy1 & Hy2 & Hsc & Hz & Hc).
  exists x1, x2, y1, y2.
  destruct p as [|p]; [lia|].
  cbn [Nat.pred nth_error] in *.
  repeat split; try assumption; lia.
Qed.

Lemma spliced_crossing_at (trace : list F) :
  forall axis, length trace <= length axis ->
    Forall (crossing_at (trace_spliced trace) (axis_spliced trace axis))
           (inserted_at (zc_idx trace)).
Proof.
  induction trace as [|y1 trace IH]; intros axis Hlen; [constructor|].
  destruct axis as [|x1 axis]; [simpl in Hlen; lia|].
  destruct trace as [|y2 trace]; [constructor|].
  destruct axis as [|x2 axis]; [simpl in Hlen; lia|].
  rewrite trace_spliced_cons2, axis_spliced_cons2, zc_idx_cons2.
  specialize (IH (x2 :: axis) ltac:(simpl in *; lia)).
  destruct (trace_spliced_head y2 trace) as [yrest Ey].
  destruct (axis_spliced_head (y2 :: trace) x2 axis) as [xrest Ex].
  destruct (sign_change y1 y2) eqn:Hsc; cbn [app].
  - rewrite inserted_at_crossing. constructor.
    + exists x1, x2, y1, y2. rewrite Ey, Ex. cbn [Nat.pred nth_error].
      repeat split; try reflexivity; try assumption; lia.
    + rewrite !Forall_map.
      eapply Forall_impl; [|exact IH].
      intros p Hp. apply crossing_at_shift, crossing_at_shift, Hp.
  - rewrite inserted_at_shift, Forall_map.
    eapply Forall_impl; [|exact IH].
    intros p Hp. apply crossing_at_shift, Hp.
Qed.

(** X1.  The augmented axis keeps every input coordinate, in order: deleting
    the inserted positions from it gives back the axis that was passed (or
    the default one).  Each inserted position holds amplitude zero and, as
    coordinate, the interpolation between its two neighbours in the output,
    whose sign bits differ. *)
Theorem insert_zeros_axis_preserved (trace : list F) (tt_arg : option (list F)) :
  axis_fits trace tt_arg ->
  exists trace_zi tt_zi,
    insert_zeros trace tt_arg = Ok (trace_zi, tt_zi) /\
    np_delete tt_zi (inserted_at (zc_idx trace)) = default_axis trace tt_arg /\
    Forall (crossing_at trace_zi tt_zi) (inserted_at (zc_idx trace)).
Proof.
  intros Hfit.
  exists (trace_spliced trace), (axis_spliced trace (default_axis trace tt_arg)).
  split; [apply insert_zeros_fits, Hfit|].
  split; [apply axis_spliced_delete, Hfit | apply spliced_crossing_at, Hfit].
Qed.

(** *** When the gathers of lines 20-23 fail *)

Lemma np_take_in_range {X : Type} (a : list X) (idx : list nat) :
  Forall (fun i => i < length a) idx -> exists xs, np_take a idx = Ok xs.
Proof.
  induction 1 as [|i idx Hi _ IH]; [eexists; reflexivity|].
  destruct IH as [xs E]. cbn [np_take].
  destruct (nth_error a i) as [x|] eqn:En.
  - rewrite E. eexists; reflexivity.
  - apply nth_error_None in En. lia.
Qed.

Lemma np_take_raises {X : Type} (a : list X) (idx : list nat) (e : exn) :
  np_take a idx = Raise e -> e = IndexError "index out of bounds".
Proof.
  induction idx as [|i idx IH]; cbn [np_take]; [discriminate|].
  destruct (nth_error a i); [|intros [= <-]; reflexivity].
  destruct (np_take a idx); [discriminate|].
  cbn [bind]. intros [= <-]. apply IH. reflexivity.
Qed.

Lemma np_take_out_of_range {X : Type} (a : list X) (idx : list nat) :
  Exists (fun i => length a <= i) idx ->
  np_take a idx = Raise (IndexError "index out of bounds").
Proof.
  intros Hex.
  destruct (np_take a idx) as [xs|e] eqn:E.
  - exfalso. revert xs E.
    induction Hex as [i idx Hi|i idx _ IH]; intros xs; cbn [np_take].
    + apply nth_error_None in Hi. rewrite Hi. discriminate.
    + destruct (nth_error a i); [|discriminate].
      destruct (np_take a idx) as [xs'|]; [|discriminate].
      intros _. exact (IH xs' eq_refl).
  - rewrite (np_take_raises _ _ E). reflexivity.
Qed.

Lemma zc_idx_in_range (trace : list F) :
  Forall (fun i => S i < length trace) (zc_idx trace).
Proof.
  rewrite zc_idx_filter. apply Forall_forall. intros i Hin.
  apply filter_In in Hin as [Hin _]. apply in_seq in Hin. lia.
Qed.

(** X2.  [insert_zeros] fails in one way only: when some crossing index [i]
    has no coordinate [tt[i + 1]] on the axis it raises [IndexError]; when
    every crossing has one it returns, and the augmented trace has the
    length of the input plus the number of sign changes, even if the axis
    is shorter than the trace. *)
Theorem insert_zeros_index_error (trace : list F) (tt_arg : option (list F)) :
  (Forall (fun i => S i < length (default_axis trace tt_arg)) (zc_idx trace) /\
   exists trace_zi tt_zi,
     insert_zeros trace tt_arg = Ok (trace_zi, tt_zi) /\
     length trace_zi = length trace + sign_changes trace) \/
  (Exists (fun i => length (default_axis trace tt_arg) <= S i) (zc_idx trace) /\
   insert_zeros trace tt_arg = Raise (IndexError "index out of bounds")).
Proof.
  set (axis := default_axis trace tt_arg).
  pose proof (zc_idx_in_range trace) as Hzc.
  destruct (np_take_in_range trace (idx := zc_idx trace)) as [y1 E3].
  { eapply Forall_impl; [|exact Hzc]. cbv beta. intros; lia. }
  destruct (np_take_in_range trace (idx := map S (zc_idx trace))) as [y2 E4].
  { rewrite Forall_map. exact Hzc. }
  destruct (Forall_Exists_dec (fun i => S i < length axis)
              (fun i => lt_dec (S i) (length axis)) (zc_idx trace)) as [Hall|Hex].
  - left. split; [exact Hall|].
    destruct (np_take_in_range axis (idx := zc_idx trace)) as [x1 E1].
    { eapply Forall_impl; [|exact Hall]. cbv beta. intros; lia. }
    destruct (np_take_in_range axis (idx := map S (zc_idx trace))) as [x2 E2].
    { rewrite Forall_map. exact Hall. }
    rewrite insert_zeros_default. fold axis.
    rewrite (insert_zeros_closed trace axis E1 E2 E3 E4).
    eexists _, _. split; [reflexivity|].
    rewrite join_trace_spliced.
    + rewrite trace_spliced_length, zc_idx_length. reflexivity.
    + apply np_take_length in E1, E2, E3, E4. rewrite length_map in E2, E4.
      repeat (rewrite zip_with_length; try lia).
  - right.
    assert (Hout : Exists (fun i => length axis <= i) (map S (zc_idx trace))).
    { apply Exists_exists in Hex as (i & Hin & Hi).
      apply Exists_exists. exists (S i). split; [apply in_map, Hin|lia]. }
    split.
    { eapply Exists_impl; [|exact Hex]. cbv beta. intros; lia. }
    apply np_take_out_of_range in Hout.
    rewrite insert_zeros_default. fold axis.
    unfold insert_zeros. cbn [default_axis].
    destruct (np_take axis (zc_idx trace)) as [x1|e] eqn:E1.
    + cbn [bind]. rewrite Hout. reflexivity.
    + rewrite (np_take_raises _ _ E1). reflexivity.
Qed.

(** *** A second pass *)

Lemma zc_idx_spliced_length (trace : list F) :
  signbit zero = false ->
  length (zc_idx (trace_spliced trace)) = length (zc_idx trace).
Proof.
  intros Hzero.
  induction trace as [|y1 trace IH]; [reflexivity|].
  destruct trace as [|y2 trace]; [reflexivity|].
  rewrite trace_spliced_cons2, (zc_idx_cons2 y1 y2 trace).
  destruct (trace_spliced_head y2 trace) as [yrest Ey].
  rewrite Ey in *.
  destruct (sign_change y1 y2) eqn:Hsc.
  - rewrite !zc_idx_cons2. rewrite !length_app, !length_map, length_app, length_map.
    rewrite IH. unfold sign_change in *. rewrite Hzero.
    destruct (signbit y1), (signbit y2); try discriminate; reflexivity.
  - rewrite zc_idx_cons2. rewrite !length_app, !length_map, IH, Hsc. reflexivity.
Qed.

(** X3.  [insert_zeros] is not idempotent.  The inserted zeros have a clear
    sign bit, so the augmented trace has as many sign changes as the input,
    and a second pass over the output inserts as many points again. *)
Theorem insert_zeros_twice (trace : list F) (tt_arg : option (list F)) :
  signbit zero = false ->
  axis_fits trace tt_arg ->
  exists trace_zi tt_zi,
    insert_zeros trace tt_arg = Ok (trace_zi, tt_zi) /\
    sign_changes trace_zi = sign_changes trace /\
    exists trace_zi2 tt_zi2,
      insert_zeros trace_zi (Some tt_zi) = Ok (trace_zi2, tt_zi2) /\
      length trace_zi2 = length trace + 2 * sign_changes trace.
Proof.
  intros Hzero Hfit.
  set (axis := default_axis trace tt_arg).
  exists (trace_spliced trace), (axis_spliced trace axis).
  split; [apply insert_zeros_fits, Hfit|].
  assert (Hsame : sign_changes (trace_spliced trace) = sign_changes trace).
  { rewrite <- !zc_idx_length. apply zc_idx_spliced_length, Hzero. }
  split; [exact Hsame|].
  assert (Hfit2 : axis_fits (trace_spliced trace) (Some (axis_spliced trace axis))).
  { unfold axis_fits. cbn [default_axis].
    rewrite trace_spliced_length, (axis_spliced_length trace axis Hfit).
    unfold axis_fits in Hfit. fold axis in Hfit. lia. }
  eexists _, _. split; [apply insert_zeros_fits, Hfit2|].
  rewrite trace_spliced_length, zc_idx_length, Hsame.
  rewrite trace_spliced_length, zc_idx_length. lia.
Qed.

End InsertZerosMore.

(** ** Exact arithmetic: the inserted point is the zero of the line *)

Section ExactInterpolation.
Local Open Scope R_scope.

Lemma crossing_on_line (x1 x2 y1 y2 : R) :
  sign_change y1 y2 = true -> x1 <> x2 ->
  line_through x1 x2 y1 y2 (crossing x1 x2 y1 y2) = 0.
Proof.
  intros Hsc Hx. apply sign_change_exact in Hsc.
  unfold line_through. rewrite crossing_exact.
  field. split; lra.
Qed.

(** X4.  In exact arithmetic every inserted coordinate is where the straight
    line through its two neighbouring samples crosses zero (the "linear
    fit" of the docstring), whenever the two samples have different
    coordinates. *)
Theorem insert_zeros_linear_fit (trace : list R) (tt_arg : option (list R)) :
  axis_fits trace tt_arg ->
  exists trace_zi tt_zi,
    insert_zeros trace tt_arg = Ok (trace_zi, tt_zi) /\
    Forall (fun p =>
              exists x1 x2 y1 y2 x0,
                nth_error tt_zi (Nat.pred p) = Some x1 /\
                nth_error tt_zi (S p) = Some x2 /\
                nth_error trace_zi (Nat.pred p) = Some y1 /\
                nth_error trace_zi (S p) = Some y2 /\
                nth_error tt_zi p = Some x0 /\
                (x1 <> x2 -> line_through x1 x2 y1 y2 x0 = 0))
           (inserted_at (zc_idx trace)).
Proof.
  intros Hfit.
  exists (trace_spliced trace), (axis_spliced trace (default_axis trace tt_arg)).
  split; [apply insert_zeros_fits, Hfit|].
  eapply Forall_impl; [|apply spliced_crossing_at, Hfit].
  intros p (x1 & x2 & y1 & y2 & _ & Hx1 & Hx2 & Hy1 & Hy2 & Hsc & _ & Hc).
  exists x1, x2, y1, y2, (crossing x1 x2 y1 y2).
  repeat split; try assumption.
  intros Hne. apply crossing_on_line; assumption.
Qed.

End ExactInterpolation.

(** ** Which inputs [wiggle_input_check] accepts *)

Section NormalizerMore.
Context {F : Type} `{Scalar F}.

Lemma check_tt_resolves (rows : nat) (tt_arg : pyval F) (tt_ : ndarray F) :
  check_tt rows tt_arg = Ok tt_ -> resolves_to rows tt_arg tt_ /\ shape tt_ = [rows].
Proof.
  unfold check_tt, resolves_to.
  destruct tt_arg as [| | | | | |a]; cbn; try discriminate.
  - intros [= <-]. split; [left; split; reflexivity | reflexivity].
  - destruct (shape a) as [|n [|? ?]] eqn:Esh; try discriminate.
    destruct (Nat.eqb n rows) eqn:En; [|discriminate].
    intros [= <-]. apply Nat.eqb_eq in En. subst n.
    split; [right; split; [reflexivity | exists rows; exact Esh] | exact Esh].
Qed.

Lemma check_xx_resolves (rows cols : nat) (tt_ : ndarray F) (xx_arg : pyval F)
    (xx : ndarray F) :
  check_xx rows cols tt_ xx_arg = Ok xx -> resolves_to cols xx_arg xx.
Proof.
  unfold check_xx, resolves_to.
  destruct xx_arg as [| | | | | |a]; cbn; try discriminate.
  - intros [= <-]. left; split; reflexivity.
  - destruct (shape a) as [|n [|? ?]] eqn:Esh; try discriminate.
    destruct (Nat.eqb (hd 0 (shape tt_)) rows); [|discriminate].
    intros [= <-]. right; split; [reflexivity | exists n; exact Esh].
Qed.

Lemma np_min_nonempty (l : list F) (m : F) : np_min l = Ok m -> 1 <= length l.
Proof. destruct l; [discriminate|]. intros _. simpl. lia. Qed.

Lemma np_max_nonempty (l : list F) (m : F) : np_max l = Ok m -> 1 <= length l.
Proof. destruct l; [discriminate|]. intros _. simpl. lia. Qed.

Lemma wiggle_input_check_inversion
    (data_arg tt_arg xx_arg sf verbose : pyval F) (out tt_ xx : ndarray F) (ts : F) :
  wiggle_input_check data_arg tt_arg xx_arg sf verbose = Ok (out, tt_, xx, ts) ->
  exists data b rows cols sfv,
    data_arg = PyArray data /\ verbose = PyBool b /\
    valid_input data tt_arg xx_arg sf rows cols tt_ xx sfv /\
    shape out = [rows; cols].
Proof.
  intros E. unfold wiggle_input_check in E.
  destruct verbose as [|b| | | | |]; cbn [is_bool] in E; try discriminate.
  destruct data_arg as [| | | | | |data]; cbn [np_shape] in E; try discriminate.
  destruct (shape data) as [|rows [|cols [|? ?]]] eqn:Esh; try discriminate.
  destruct (check_tt rows tt_arg) as [tt0|] eqn:Ett; [|discriminate].
  cbn [bind] in E.
  destruct (check_xx rows cols tt0 xx_arg) as [xx0|] eqn:Exx; [|discriminate].
  cbn [bind] in E.
  destruct (is_number sf); [|discriminate].
  unfold rescale, as_float64 in E.
  destruct (np_min (np_diff (flat xx0))) as [ts0|] eqn:Ets; [|discriminate].
  cbn [bind] in E.
  destruct (np_max (np_std_axis0 rows cols (flat data))) as [g|] eqn:Eg;
    [|discriminate].
  cbn [bind] in E.
  destruct (as_number sf) as [sfv|] eqn:Esf; [|discriminate].
  cbn [bind] in E. injection E as <- <- <- _.
  exists data, b, rows, cols, sfv.
  split; [reflexivity|]. split; [reflexivity|].
  destruct (check_tt_resolves _ _ Ett) as [Hres Hlen].
  apply np_min_nonempty in Ets. rewrite np_diff_length in Ets.
  apply np_max_nonempty in Eg. rewrite np_std_axis0_length in Eg.
  split; [|reflexivity].
  constructor; try assumption.
  - exact (check_xx_resolves _ _ _ _ Exx).
  - lia.
Qed.

(** X5.  For a stretch factor that is not an int too large for float64
    (of magnitude [2^1024 - 2^970] or more; the product of line 98 cannot be
    formed with such an int), [wiggle_input_check] returns exactly on the
    valid inputs: [verbose] a bool, [data] a two-dimensional array with at
    least one column, [tt] absent or one-dimensional with as many entries as
    [data] has rows, [xx] absent or one-dimensional, at least two trace
    coordinates, and [sf] a bool, an int or a float.  On every other input
    it raises; and the [tt] and [xx] it returns are the arrays passed, or
    the index sequences. *)
Theorem wiggle_input_check_returns_iff_valid
    (data_arg tt_arg xx_arg sf verbose : pyval F) (tt_ xx : ndarray F) :
  (forall z, sf = PyInt z -> float64_holds z = true) ->
  ((exists out ts,
      wiggle_input_check data_arg tt_arg xx_arg sf verbose = Ok (out, tt_, xx, ts))
   <->
   (exists data b rows cols sfv,
      data_arg = PyArray data /\ verbose = PyBool b /\
      valid_input data tt_arg xx_arg sf rows cols tt_ xx sfv)).
Proof.
  intros _. split.
  - intros (out & ts & E).
    destruct (wiggle_input_check_inversion _ _ _ _ _ E)
      as (data & b & rows & cols & sfv & Hd & Hv & Hvalid & _).
    exists data, b, rows, cols, sfv.
    split; [exact Hd|]. split; [exact Hv | exact Hvalid].
  - intros (data & b & rows & cols & sfv & -> & -> & Hvalid).
    destruct (wiggle_input_check_valid b Hvalid) as (ts & g & _ & _ & E).
    eexists _, ts. exact E.
Qed.

(** *** The loop of [wiggle] *)

Lemma column_length (rows cols : nat) (buf : list F) (ntr : nat) :
  length (column rows cols buf ntr) = rows.
Proof. unfold column. rewrite length_map, length_seq. reflexivity. Qed.

Lemma wiggle_loop_returns (rows cols : nat) (buf tt_ xx : list F) :
  rows <= length tt_ ->
  forall n ntr,
    ntr + n <= length xx ->
    exists curves,
      wiggle_loop rows cols buf tt_ xx ntr n = Ok curves /\
      map fst curves = firstn n (skipn ntr xx) /\
      map snd curves =
      map (fun j => (trace_spliced (column rows cols buf j),
                     axis_spliced (column rows cols buf j) tt_)) (seq ntr n).
Proof.
  intros Hrows. induction n as [|n IH]; intros ntr Hn.
  - exists []. repeat split; reflexivity.
  - cbn [wiggle_loop]. unfold np_item.
    destruct (nth_error xx ntr) as [offset|] eqn:Ex.
    2:{ apply nth_error_None in Ex. lia. }
    cbn [bind].
    rewrite insert_zeros_spliced by (rewrite column_length; exact Hrows).
    cbn [bind].
    destruct (IH (S ntr) ltac:(lia)) as (curves & -> & Hfst & Hsnd).
    cbn [bind]. eexists. split; [reflexivity|].
    cbn [map fst snd seq]. rewrite Hfst, Hsnd.
    rewrite (skipn_nth_error _ _ Ex). split; reflexivity.
Qed.

Lemma wiggle_loop_raises (rows cols : nat) (buf tt_ xx : list F) :
  rows <= length tt_ ->
  forall n ntr,
    ntr <= length xx -> length xx < ntr + n ->
    wiggle_loop rows cols buf tt_ xx ntr n = Raise (IndexError "index out of bounds").
Proof.
  intros Hrows. induction n as [|n IH]; intros ntr Hntr Hn; [lia|].
  cbn [wiggle_loop]. unfold np_item.
  destruct (nth_error xx ntr) as [offset|] eqn:Ex; [|reflexivity].
  cbn [bind].
  rewrite insert_zeros_spliced by (rewrite column_length; exact Hrows).
  cbn [bind].
  assert (Hlt : ntr < length xx) by (apply nth_error_Some; congruence).
  rewrite (IH (S ntr)) by lia. reflexivity.
Qed.

(** X6.  After the input check, [wiggle] handles the columns of the rescaled
    data in order.  With a coordinate [xx[ntr]] for every column it prepares
    one curve per column: the offset [xx[ntr]] and the column with its zero
    crossings inserted on the axis [tt].  When [xx] has fewer entries than
    [data] has columns, which the input check lets through, the loop runs
    off the end of [xx] and [IndexError] is raised. *)
Theorem wiggle_traces_per_column (data_arg tt_arg xx_arg sf verbose : pyval F)
    (out tt_ xx : ndarray F) (ts : F) :
  wiggle_input_check data_arg tt_arg xx_arg sf verbose = Ok (out, tt_, xx, ts) ->
  hd 0 (shape tt_) <= length (flat tt_) ->
  exists rows cols,
    shape out = [rows; cols] /\
    ((cols <= length (flat xx) /\
      exists curves,
        wiggle_traces data_arg tt_arg xx_arg sf verbose = Ok curves /\
        map fst curves = firstn cols (flat xx) /\
        map snd curves =
        map (fun ntr => (trace_spliced (column rows cols (flat out) ntr),
                         axis_spliced (column rows cols (flat out) ntr) (flat tt_)))
            (seq 0 cols)) \/
     (length (flat xx) < cols /\
      wiggle_traces data_arg tt_arg xx_arg sf verbose
      = Raise (IndexError "index out of bounds"))).
Proof.
  intros E Htt.
  destruct (wiggle_input_check_inversion _ _ _ _ _ E)
    as (data & b & rows & cols & sfv & _ & _ & Hvalid & Hout).
  exists rows, cols. split; [exact Hout|].
  assert (Hrows : rows <= length (flat tt_)).
  { rewrite (valid_tt_length Hvalid) in Htt. exact Htt. }
  unfold wiggle_traces. rewrite E. cbn [bind]. rewrite Hout.
  destruct (le_lt_dec cols (length (flat xx))) as [Hle|Hlt].
  - left. split; [exact Hle|].
    destruct (@wiggle_loop_returns rows cols (flat out) (flat tt_) (flat xx)
                Hrows cols 0 ltac:(lia)) as (curves & Ec & Hfst & Hsnd).
    exists curves. repeat split; assumption.
  - right. split; [exact Hlt|].
    apply wiggle_loop_raises; [exact Hrows | lia | lia].
Qed.

End NormalizerMore.

(** ** Exact arithmetic: what the rescaling achieves *)

Section ExactNormalizerMore.
Local Open Scope R_scope.

Lemma np_diff_seq (n start : nat) :
  Forall (fun d => d = 1) (np_diff (map (fun i => IZR (Z.of_nat i)) (seq start n))).
Proof.
  revert start; induction n as [|n IH]; intros start; [constructor|].
  destruct n as [|n]; [constructor|].
  specialize (IH (S start)).
  change (seq start (S (S n))) with (start :: seq (S start) (S n)).
  cbn [seq map] in *. cbn [np_diff sub Exact.scalar].
  constructor; [|exact IH].
  rewrite Nat2Z.inj_succ, succ_IZR. lra.
Qed.

(** X7.  Without [xx] the traces sit at 0, 1, 2, ...: the trace spacing that
    is returned is exactly 1, so (in exact arithmetic, with a column that is
    not constant) every amplitude is scaled by [sf / global_std] alone. *)
Theorem default_trace_spacing (data : ndarray R) (tt_arg sf : pyval R)
    (verbose : bool) (rows cols : nat) (tt_ xx : ndarray R) (scaleFactor : R) :
  valid_input data tt_arg PyNone sf rows cols tt_ xx scaleFactor ->
  varies rows cols (flat data) ->
  exists globalStd : R,
    np_max (np_std_axis0 rows cols (flat data)) = Ok globalStd /\
    0 < globalStd /\
    wiggle_input_check (PyArray data) tt_arg PyNone sf (PyBool verbose)
    = Ok (mk_ndarray [rows; cols]
            (map (fun d => d * (scaleFactor / globalStd)) (flat data)),
          tt_, arange_array cols, 1).
Proof.
  intros Hvalid Hvar.
  destruct (wiggle_input_check_valid verbose Hvalid) as (ts & g & Ets & Eg & E).
  assert (Hxx : xx = arange_array cols).
  { destruct (valid_xx Hvalid) as [[_ ->]|[Hno _]]; [reflexivity|discriminate]. }
  subst xx.
  assert (Hts : ts = 1).
  { apply np_min_least in Ets as [Hin _].
    pose proof (np_diff_seq cols 0) as Hall.
    rewrite Forall_forall in Hall. apply Hall. exact Hin. }
  subst ts. exists g. split; [exact Eg|].
  split; [exact (global_std_positive Hvar Eg)|].
  rewrite E. do 5 f_equal.
  apply map_ext. intros d. cbn [mul div Exact.scalar]. unfold Rdiv. ring.
Qed.

Lemma increasing_diff (xx : list R) :
  increasing xx -> Forall (fun d => 0 < d) (np_diff xx).
Proof.
  intros Hinc. apply Forall_forall. intros d Hd.
  apply np_diff_In in Hd as (i & x1 & x2 & H1 & H2 & ->).
  specialize (Hinc i x1 x2 H1 H2). cbn [sub Exact.scalar]. lra.
Qed.

(** X8.  In exact arithmetic, for strictly increasing trace coordinates, a
    positive stretch factor and data with a column that is not constant,
    the trace spacing is positive and the rescaled data has [ts * sf] as
    its largest column standard deviation: no trace swings, in that
    measure, by more than the stretch factor times the trace spacing.
    Checking the rescaled data again with the same arguments returns it
    unchanged.  No division by zero occurs in either run. *)
Theorem rescaled_deviation (data : ndarray R) (tt_arg xx_arg sf : pyval R)
    (verbose : bool) (rows cols : nat) (tt_ xx : ndarray R) (scaleFactor : R) :
  valid_input data tt_arg xx_arg sf rows cols tt_ xx scaleFactor ->
  increasing (flat xx) ->
  0 < scaleFactor ->
  varies rows cols (flat data) ->
  exists (out : ndarray R) (ts : R),
    wiggle_input_check (PyArray data) tt_arg xx_arg sf (PyBool verbose)
    = Ok (out, tt_, xx, ts) /\
    0 < ts /\
    np_max (np_std_axis0 rows cols (flat out)) = Ok (ts * scaleFactor) /\
    wiggle_input_check (PyArray out) tt_arg xx_arg sf (PyBool verbose)
    = Ok (out, tt_, xx, ts).
Proof.
  intros Hvalid Hinc Hsf Hvar.
  destruct (wiggle_input_check_valid verbose Hvalid) as (ts & g & Ets & Eg & E).
  assert (Hg : 0 < g) by exact (global_std_positive Hvar Eg).
  assert (Hts : 0 < ts).
  { pose proof Ets as Ets'. apply np_min_least in Ets' as [Hin _].
    pose proof (increasing_diff Hinc) as Hall.
    rewrite Forall_forall in Hall. apply Hall, Hin. }
  assert (Hnz : 0 < ts * scaleFactor) by (apply Rmult_lt_0_compat; assumption).
  set (k := ts * scaleFactor * / g).
  assert (Hk : 0 <= k).
  { unfold k. left. apply Rmult_lt_0_compat; [exact Hnz|].
    apply Rinv_0_lt_compat, Hg. }
  assert (Hbuf : map (fun d => mul (mul (div d g) ts) scaleFactor) (flat data)
                 = map (Rmult k) (flat data)).
  { apply map_ext. intros d. cbn [mul div Exact.scalar]. unfold k, Rdiv. ring. }
  rewrite Hbuf in E.
  set (out := mk_ndarray [rows; cols] (map (Rmult k) (flat data))) in *.
  assert (Emax : np_max (np_std_axis0 rows cols (flat out)) = Ok (ts * scaleFactor)).
  { unfold out. cbn [flat].
    rewrite np_std_axis0_scale, np_max_scale by exact Hk.
    rewrite Eg. cbn [bind]. f_equal. unfold k. field. lra. }
  exists out, ts. split; [exact E|]. split; [exact Hts|]. split; [exact Emax|].
  assert (Hvalid' : valid_input out tt_arg xx_arg sf rows cols tt_ xx scaleFactor).
  { destruct Hvalid. constructor; try assumption. reflexivity. }
  destruct (wiggle_input_check_valid verbose Hvalid') as (ts' & g' & Ets' & Eg' & E').
  rewrite Ets in Ets'. injection Ets' as <-.
  rewrite Emax in Eg'. injection Eg' as <-.
  rewrite E'. unfold out. cbn [flat]. do 5 f_equal.
  rewrite map_map. apply map_ext. intros d.
  cbn [mul div Exact.scalar]. unfold Rdiv.
  field. split; lra.
Qed.

End ExactNormalizerMore.

(** ** Exact arithmetic: the curves that are drawn *)

Section ExactDrawing.
Local Open Scope R_scope.

Lemma Rleb_refl (x : R) : Exact.Rleb x x = true.
Proof. apply Rleb_true. lra. Qed.

Lemma Rleb_false (x y : R) : Exact.Rleb x y = false <-> y < x.
Proof. unfold Exact.Rleb. destruct (Rle_dec x y); split; intros; try lra; easy. Qed.

(** X9.  In [wiggle], every inserted crossing is part of the filled region
    ([where=trace_zi >= 0] holds there) and the drawn curve
    [trace_zi + offset] is exactly on the baseline [offset] at it; a sample
    is left out of the fill exactly when it is negative. *)
Theorem wiggle_fill_closes_at_crossings (trace : list R) (tt_arg : option (list R))
    (offset : R) :
  axis_fits trace tt_arg ->
  exists trace_zi tt_zi,
    insert_zeros trace tt_arg = Ok (trace_zi, tt_zi) /\
    Forall (fun p => nth_error (fill_where trace_zi) p = Some true /\
                     nth_error (shifted offset trace_zi) p = Some offset)
           (inserted_at (zc_idx trace)) /\
    (forall p y, nth_error trace_zi p = Some y ->
                 (nth_error (fill_where trace_zi) p = Some false <-> y < 0)).
Proof.
  intros Hfit.
  exists (trace_spliced trace), (axis_spliced trace (default_axis trace tt_arg)).
  split; [apply insert_zeros_fits, Hfit|]. split.
  - eapply Forall_impl; [|apply trace_spliced_inserted_zero].
    intros p Hp. unfold fill_where, shifted. rewrite !nth_error_map, Hp.
    cbn [option_map leb add zero Exact.scalar].
    rewrite Rleb_refl, Rplus_0_l. split; reflexivity.
  - intros p y Hy. unfold fill_where. rewrite nth_error_map, Hy.
    cbn [option_map leb zero Exact.scalar].
    rewrite <- Rleb_false. split; [intros [= E]; exact E | intros ->; reflexivity].
Qed.

(** X10.  In the shaded mode of [traces], the top outline, the baseline and
    the bottom outline all pass through [offset] at every inserted
    crossing, so the outlines of the positive and of the negative lobes
    meet there.  Every sample is on the top outline or on the bottom one:
    it is missing from the top one exactly when it is negative and from the
    bottom one exactly when it is positive. *)
Theorem traces_outlines_meet_at_crossings (trace : list R)
    (tt_arg : option (list R)) (offset : R) :
  axis_fits trace tt_arg ->
  exists trace_zi tt_zi,
    insert_zeros trace tt_arg = Ok (trace_zi, tt_zi) /\
    Forall (fun p => nth_error (trace_top offset trace_zi) p = Some (Some offset) /\
                     nth_error (trace_line offset trace_zi) p = Some (Some offset) /\
                     nth_error (trace_bot offset trace_zi) p = Some (Some offset))
           (inserted_at (zc_idx trace)) /\
    (forall p y, nth_error trace_zi p = Some y ->
       (nth_error (trace_top offset trace_zi) p = Some (Some (y + offset)) \/
        nth_error (trace_bot offset trace_zi) p = Some (Some (y + offset))) /\
       (nth_error (trace_top offset trace_zi) p = Some None <-> y < 0) /\
       (nth_error (trace_bot offset trace_zi) p = Some None <-> 0 < y)).
Proof.
  intros Hfit.
  exists (trace_spliced trace), (axis_spliced trace (default_axis trace tt_arg)).
  split; [apply insert_zeros_fits, Hfit|]. split.
  - eapply Forall_impl; [|apply trace_spliced_inserted_zero].
    intros p Hp. unfold trace_top, trace_line, trace_bot.
    rewrite !nth_error_map, Hp.
    cbn [option_map leb add zero Exact.scalar].
    rewrite Rleb_refl, Rplus_0_l. repeat split; reflexivity.
  - intros p y Hy. unfold trace_top, trace_bot. rewrite !nth_error_map, Hy.
    cbn [option_map leb add zero Exact.scalar].
    destruct (Exact.Rleb 0 y) eqn:Etop; destruct (Exact.Rleb y 0) eqn:Ebot;
      repeat match goal with
             | E : Exact.Rleb _ _ = true |- _ => apply Rleb_true in E
             | E : Exact.Rleb _ _ = false |- _ => apply Rleb_false in E
             end;
      (split; [first [left; reflexivity | right; reflexivity | lra]|]);
      split; split; intros Hx; try discriminate; try lra; reflexivity.
Qed.

End ExactDrawing.

(** ** The further theorems at concrete inputs *)

Section MoreWitnesses.
Import Float64.

(** The axis [[0, 1, 2]] under the trace [[1, -1, 2]]. *)
Lemma insert_zeros_axis_preserved_witness :
  axis_fits [1; -1; 2]%float (Some [0; 1; 2]%float) /\
  exists trace_zi tt_zi,
    insert_zeros [1; -1; 2]%float (Some [0; 1; 2]%float) = Ok (trace_zi, tt_zi) /\
    np_delete tt_zi (inserted_at (zc_idx [1; -1; 2]%float)) = [0; 1; 2]%float /\
    Forall (crossing_at trace_zi tt_zi) (inserted_at (zc_idx [1; -1; 2]%float)).
Proof.
  assert (Hfit : axis_fits [1; -1; 2]%float (Some [0; 1; 2]%float))
    by (unfold axis_fits; simpl; lia).
  split; [exact Hfit|].
  exact (@insert_zeros_axis_preserved float Float64.scalar
           [1; -1; 2]%float (Some [0; 1; 2]%float) Hfit).
Defined.

(** Two passes over [[1, -1]]. *)
Lemma insert_zeros_twice_witness :
  signbit 0%float = false /\
  axis_fits [1; -1]%float None /\
  exists trace_zi tt_zi,
    insert_zeros [1; -1]%float None = Ok (trace_zi, tt_zi) /\
    sign_changes trace_zi = sign_changes [1; -1]%float /\
    exists trace_zi2 tt_zi2,
      insert_zeros trace_zi (Some tt_zi) = Ok (trace_zi2, tt_zi2) /\
      length trace_zi2 = 2 + 2 * sign_changes [1; -1]%float.
Proof.
  assert (Hfit : axis_fits [1; -1]%float None)
    by (unfold axis_fits; simpl; lia).
  split; [reflexivity|]. split; [exact Hfit|].
  exact (@insert_zeros_twice float Float64.scalar [1; -1]%float None eq_refl Hfit).
Defined.

(** The crossing of [[3, -1]] on the axis [[0, 2]]. *)
Lemma insert_zeros_linear_fit_witness :
  axis_fits [3; -1]%R (Some [0; 2]%R) /\
  exists trace_zi tt_zi,
    insert_zeros [3; -1]%R (Some [0; 2]%R) = Ok (trace_zi, tt_zi) /\
    Forall (fun p =>
              exists x1 x2 y1 y2 x0,
                nth_error tt_zi (Nat.pred p) = Some x1 /\
                nth_error tt_zi (S p) = Some x2 /\
                nth_error trace_zi (Nat.pred p) = Some y1 /\
                nth_error trace_zi (S p) = Some y2 /\
                nth_error tt_zi p = Some x0 /\
                (x1 <> x2 -> line_through x1 x2 y1 y2 x0 = 0%R))
           (inserted_at (zc_idx [3; -1]%R)).
Proof.
  assert (Hfit : axis_fits [3; -1]%R (Some [0; 2]%R))
    by (unfold axis_fits; simpl; lia).
  split; [exact Hfit|].
  exact (@insert_zeros_linear_fit [3; -1]%R (Some [0; 2]%R) Hfit).
Defined.

(** The scenario's data with default axes and stretch factor 1. *)
Lemma wiggle_traces_per_column_witness :
  exists rows cols,
    shape (mk_ndarray [2; 2] [0.5; 1; -0.5; -1]%float) = [rows; cols] /\
    ((cols <= 2 /\
      exists curves,
        wiggle_traces (array [2; 2] scenario_data) PyNone PyNone
                      (PyFloat 1%float) (PyBool false) = Ok curves /\
        map fst curves = firstn cols [0; 1]%float /\
        map snd curves =
        map (fun ntr =>
               (trace_spliced (column rows cols [0.5; 1; -0.5; -1]%float ntr),
                axis_spliced (column rows cols [0.5; 1; -0.5; -1]%float ntr)
                             [0; 1]%float))
            (seq 0 cols)) \/
     (2 < cols /\
      wiggle_traces (array [2; 2] scenario_data) PyNone PyNone
                    (PyFloat 1%float) (PyBool false)
      = Raise (IndexError "index out of bounds"))).
Proof.
  assert (E : wiggle_input_check (array [2; 2] scenario_data) PyNone PyNone
                (PyFloat 1%float) (PyBool false)
              = Ok (mk_ndarray [2; 2] [0.5; 1; -0.5; -1]%float,
                    mk_ndarray [2] [0; 1]%float, mk_ndarray [2] [0; 1]%float,
                    1%float)) by (vm_compute; reflexivity).
  assert (Htt : hd 0 (shape (mk_ndarray [2] [0; 1]%float))
                <= length (flat (mk_ndarray [2] [0; 1]%float)))
    by (simpl; lia).
  exact (@wiggle_traces_per_column float Float64.scalar _ _ _ _ _ _ _ _ _ E Htt).
Defined.

(** The scenario's data with default axes and the int 1 as stretch factor. *)
Lemma wiggle_input_check_returns_iff_valid_witness :
  (exists out ts,
     wiggle_input_check (array [2; 2] scenario_data) PyNone PyNone
                        (PyInt 1) (PyBool false)
     = Ok (out, arange_array 2, arange_array 2, ts))
  <->
  (exists data b rows cols sfv,
     array [2; 2] scenario_data = PyArray data /\
     @PyBool float false = PyBool b /\
     valid_input data PyNone PyNone (PyInt 1) rows cols
                 (arange_array 2) (arange_array 2) sfv).
Proof.
  apply (@wiggle_input_check_returns_iff_valid float Float64.scalar
           (array [2; 2] scenario_data) PyNone PyNone (PyInt 1) (PyBool false)
           (arange_array 2) (arange_array 2)).
  intros z Hz. injection Hz as <-. reflexivity.
Defined.

(** A two by three matrix with default axes. *)
Lemma default_trace_spacing_witness :
  exists globalStd : R,
    np_max (np_std_axis0 2 3 [1; 2; 3; -1; -2; -3]%R) = Ok globalStd /\
    (0 < globalStd)%R /\
    wiggle_input_check (PyArray (mk_ndarray [2; 3] [1; 2; 3; -1; -2; -3]%R))
                       PyNone PyNone (PyInt 2) (PyBool true)
    = Ok (mk_ndarray [2; 3]
            (map (fun d => d * (2 / globalStd))%R [1; 2; 3; -1; -2; -3]%R),
          arange_array 2, arange_array 3, 1%R).
Proof.
  apply (@default_trace_spacing
           (mk_ndarray [2; 3] [1; 2; 3; -1; -2; -3]%R)
           PyNone (PyInt 2) true 2 3 (arange_array 2) (arange_array 3) 2%R).
  - constructor.
    + reflexivity.
    + left. split; reflexivity.
    + reflexivity.
    + left. split; reflexivity.
    + reflexivity.
    + simpl. lia.
    + lia.
  - exists 0. split; [lia|].
    change (column 2 3 (flat (mk_ndarray [2; 3] [1; 2; 3; -1; -2; -3]%R)) 0)
      with [1; -1]%R.
    rewrite standard_deviation_example. lra.
Defined.

(** One column [[1, -1]], trace coordinates [[0, 1]], stretch factor 1. *)
Lemma rescaled_deviation_witness :
  exists (out : ndarray R) (ts : R),
    wiggle_input_check (PyArray (mk_ndarray [2; 1] [1; -1]%R)) PyNone
                       (PyArray (mk_ndarray [2] [0; 1]%R)) (PyInt 1) (PyBool false)
    = Ok (out, arange_array 2, mk_ndarray [2] [0; 1]%R, ts) /\
    (0 < ts)%R /\
    np_max (np_std_axis0 2 1 (flat out)) = Ok (ts * 1)%R /\
    wiggle_input_check (PyArray out) PyNone
                       (PyArray (mk_ndarray [2] [0; 1]%R)) (PyInt 1) (PyBool false)
    = Ok (out, arange_array 2, mk_ndarray [2] [0; 1]%R, ts).
Proof.
  apply (@rescaled_deviation
           (mk_ndarray [2; 1] [1; -1]%R) PyNone
           (PyArray (mk_ndarray [2] [0; 1]%R)) (PyInt 1) false 2 1
           (arange_array 2) (mk_ndarray [2] [0; 1]%R) 1%R).
  - constructor.
    + reflexivity.
    + left. split; reflexivity.
    + reflexivity.
    + right. split; [reflexivity|]. exists 2. reflexivity.
    + reflexivity.
    + simpl. lia.
    + lia.
  - intros i x1 x2 H1 H2. cbn [flat] in H1, H2.
    destruct i as [|[|i]]; cbn in H1, H2; try discriminate.
    injection H1 as <-. injection H2 as <-. lra.
  - lra.
  - exists 0. split; [lia|].
    change (column 2 1 (flat (mk_ndarray [2; 1] [1; -1]%R)) 0) with [1; -1]%R.
    rewrite standard_deviation_example. lra.
Defined.

(** The fill of [[1, -1]] around the offset 5. *)
Lemma wiggle_fill_closes_at_crossings_witness :
  axis_fits [1; -1]%R None /\
  exists trace_zi tt_zi,
    insert_zeros [1; -1]%R None = Ok (trace_zi, tt_zi) /\
    Forall (fun p => nth_error (fill_where trace_zi) p = Some true /\
                     nth_error (shifted 5%R trace_zi) p = Some 5%R)
           (inserted_at (zc_idx [1; -1]%R)) /\
    (forall p y, nth_error trace_zi p = Some y ->
                 (nth_error (fill_where trace_zi) p = Some false <-> (y < 0)%R)).
Proof.
  assert (Hfit : axis_fits [1; -1]%R None)
    by (unfold axis_fits; cbn; lia).
  split; [exact Hfit|].
  exact (@wiggle_fill_closes_at_crossings [1; -1]%R None 5%R Hfit).
Defined.

(** The outlines of [[1, -1]] around the offset 5. *)
Lemma traces_outlines_meet_at_crossings_witness :
  axis_fits [1; -1]%R None /\
  exists trace_zi tt_zi,
    insert_zeros [1; -1]%R None = Ok (trace_zi, tt_zi) /\
    Forall (fun p => nth_error (trace_top 5%R trace_zi) p = Some (Some 5%R) /\
                     nth_error (trace_line 5%R trace_zi) p = Some (Some 5%R) /\
                     nth_error (trace_bot 5%R trace_zi) p = Some (Some 5%R))
           (inserted_at (zc_idx [1; -1]%R)) /\
    (forall p y, nth_error trace_zi p = Some y ->
       (nth_error (trace_top 5%R trace_zi) p = Some (Some (y + 5)%R) \/
        nth_error (trace_bot 5%R trace_zi) p = Some (Some (y + 5)%R)) /\
       (nth_error (trace_top 5%R trace_zi) p = Some None <-> (y < 0)%R) /\
       (nth_error (trace_bot 5%R trace_zi) p = Some None <-> (0 < y)%R)).
Proof.
  assert (Hfit : axis_fits [1; -1]%R None)
    by (unfold axis_fits; cbn; lia).
  split; [exact Hfit|].
  exact (@traces_outlines_meet_at_crossings [1; -1]%R None 5%R Hfit).
Defined.

End MoreWitnesses.
